(** * Keyword spotter: audio queue, recorder, feature extractor, classification loop

    A shallow embedding of [audio_recorder.py] and [model.py] and the
    properties of the capture / feature / classification pipeline.

    Layout: the Python runtime pieces the code relies on ([Py]), then
    [audio_recorder] and [model], one module per source file, then the
    theorems. *)

From Stdlib Require Import ZArith QArith Qabs Ascii String DecimalString List Lia.
From Stdlib Require Import PrimFloat FloatOps SpecFloat.
From stdpp Require Import gmap strings list.

Open Scope Z_scope.
Set Warnings "-inexact-float".

(* ===================================================================== *)
(** ** Python runtime *)
(* ===================================================================== *)

Module Py.

(** Exceptions the modelled code can raise.  [TimeoutError] is the class
    defined in [audio_recorder.py], raised with one of two messages;
    [QueueFull] and [QueueEmpty] are [queue.Full] and [queue.Empty]. *)
Inductive timeout_message : Type :=
| RawAudioBufferFull                 (* "Raw audio buffer full." *)
| CaptureTimedOut (timeout : Q).     (* "Audio capture timed out after %.1f seconds." *)

Inductive exn : Type :=
| IndexError
| ValueError
| ZeroDivisionError
| AssertionError
| OverflowError
| QueueFull
| QueueEmpty
| AttributeError
| TimeoutError (msg : timeout_message).

Inductive res (A : Type) : Type :=
| Ok (a : A)
| Raise (e : exn).
Arguments Ok {A} a.
Arguments Raise {A} e.

Definition bind {A B} (m : res A) (k : A -> res B) : res B :=
  match m with
  | Ok a => k a
  | Raise e => Raise e
  end.

Definition is_ok {A} (m : res A) : bool :=
  match m with Ok _ => true | Raise _ => false end.

(** [for x in xs: acc = body(x, acc)], stopping at the first exception. *)
Fixpoint for_each {A S} (body : A -> S -> res S) (xs : list A) (acc : S) : res S :=
  match xs with
  | [] => Ok acc
  | x :: rest => bind (body x acc) (for_each body rest)
  end.

(** [l[i]] on a Python list or a 1-D numpy array: a negative index counts
    from the end, an index outside [-len, len) raises [IndexError]. *)
Definition getitem {A} (l : list A) (i : Z) : res A :=
  let n := Z.of_nat (length l) in
  let j := if i <? 0 then i + n else i in
  if (0 <=? j) && (j <? n) then
    match l !! Z.to_nat j with
    | Some x => Ok x
    | None => Raise IndexError
    end
  else Raise IndexError.

(** Normalisation of a slice bound for a positive step: negative bounds
    count from the end, everything is clamped to [0, len]. *)
Definition slice_bound (n i : Z) : nat :=
  Z.to_nat (if i <? 0 then Z.max 0 (i + n) else Z.min i n).

(** [l[a:]] *)
Definition slice_from {A} (l : list A) (a : Z) : list A :=
  drop (slice_bound (Z.of_nat (length l)) a) l.

(** [l[:b]] *)
Definition slice_to {A} (l : list A) (b : Z) : list A :=
  take (slice_bound (Z.of_nat (length l)) b) l.

(** Every [k]-th element, the first one after skipping [skip]. *)
Fixpoint every_nth {A} (k skip : nat) (l : list A) : list A :=
  match l with
  | [] => []
  | x :: t =>
      match skip with
      | O => x :: every_nth k (Nat.pred k) t
      | S s => every_nth k s t
      end
  end.

(** [l[::k]]: stride [k] from the front for [k > 0], stride [-k] from the
    back for [k < 0], [ValueError] for a zero step. *)
Definition slice_step {A} (l : list A) (k : Z) : res (list A) :=
  if k =? 0 then Raise ValueError
  else if 0 <? k then Ok (every_nth (Z.to_nat k) 0 l)
  else Ok (every_nth (Z.to_nat (- k)) 0 (rev l)).

(** Python floats as the values they denote: a finite float is modelled by
    its exact rational value (a decimal literal by the rational it is
    written as), comparisons follow IEEE 754 (every comparison with NaN is
    false). *)
Inductive pyfloat : Type :=
| PyFin (q : Q)
| PyInf (negative : bool)
| PyNaN.

Definition float_le (x y : pyfloat) : bool :=
  match x, y with
  | PyNaN, _ | _, PyNaN => false
  | PyFin a, PyFin b => Qle_bool a b
  | PyInf true, _ => true
  | _, PyInf false => true
  | PyInf false, _ => false
  | _, PyInf true => false
  end.

Definition float_lt (x y : pyfloat) : bool :=
  match x, y with
  | PyNaN, _ | _, PyNaN => false
  | PyFin a, PyFin b => negb (Qle_bool b a)
  | PyInf true, PyInf true => false
  | PyInf false, PyInf false => false
  | PyInf true, _ => true
  | _, PyInf false => true
  | PyInf false, _ => false
  | _, PyInf true => false
  end.

Definition float_neg (x : pyfloat) : pyfloat :=
  match x with
  | PyFin q => PyFin (- q)
  | PyInf s => PyInf (negb s)
  | PyNaN => PyNaN
  end.

(** Arithmetic on these values: exact on the finite ones, the IEEE 754
    rules on infinities and NaN (signed zeros are not distinguished, every
    zero divisor counts as +0). *)
Definition float_add (x y : pyfloat) : pyfloat :=
  match x, y with
  | PyNaN, _ | _, PyNaN => PyNaN
  | PyFin a, PyFin b => PyFin (Qred (a + b))
  | PyInf s, PyInf t => if Bool.eqb s t then PyInf s else PyNaN
  | PyInf s, _ | _, PyInf s => PyInf s
  end.

Definition float_sub (x y : pyfloat) : pyfloat := float_add x (float_neg y).

Definition Qnegative (a : Q) : bool := negb (Qle_bool 0 a).
Definition Qzero (a : Q) : bool := Qeq_bool a 0.

Definition float_mul (x y : pyfloat) : pyfloat :=
  match x, y with
  | PyNaN, _ | _, PyNaN => PyNaN
  | PyFin a, PyFin b => PyFin (Qred (a * b))
  | PyInf s, PyInf t => PyInf (xorb s t)
  | PyInf s, PyFin a | PyFin a, PyInf s =>
      if Qzero a then PyNaN else PyInf (xorb s (Qnegative a))
  end.

Definition float_div (x y : pyfloat) : pyfloat :=
  match x, y with
  | PyNaN, _ | _, PyNaN => PyNaN
  | PyFin a, PyFin b =>
      if Qzero b then (if Qzero a then PyNaN else PyInf (Qnegative a))
      else PyFin (Qred (a / b))
  | PyFin _, PyInf _ => PyFin 0
  | PyInf s, PyFin b => PyInf (xorb s (Qnegative b))
  | PyInf _, PyInf _ => PyNaN
  end.

(** The square root, rounded down to a multiple of [2^-20 / den]. *)
Definition float_sqrt (x : pyfloat) : pyfloat :=
  match x with
  | PyNaN | PyInf true => PyNaN
  | PyInf false => PyInf false
  | PyFin a =>
      if Qnegative a then PyNaN
      else PyFin (Qred (Z.sqrt (Qnum a * Z.pos (Qden a) * 2 ^ 40) # (Qden a * 2 ^ 20)))
  end.

(** [np.minimum], [np.maximum]: a NaN operand gives NaN. *)
Definition float_minimum (x y : pyfloat) : pyfloat :=
  match x, y with
  | PyNaN, _ | _, PyNaN => PyNaN
  | _, _ => if float_lt y x then y else x
  end.

Definition float_maximum (x y : pyfloat) : pyfloat :=
  match x, y with
  | PyNaN, _ | _, PyNaN => PyNaN
  | _, _ => if float_lt x y then y else x
  end.

(** The conversion to an integer: truncation; on a NaN or an infinity C
    leaves the result open, 0 is what the usual platforms give once the
    value is narrowed to 8 bits. *)
Definition float_to_int (x : pyfloat) : Z :=
  match x with
  | PyFin a => Z.quot (Qnum a) (Z.pos (Qden a))
  | _ => 0
  end.

(** Binary64 arithmetic, for the sample counts the extractor computes from
    the decimal constants 0.025 and 0.010: these are Rocq's primitive
    floats, which round as Python's do. *)

(** [float(z)] for a Python integer: correctly rounded, [OverflowError]
    beyond the range of binary64. *)
Definition float_of_int (z : Z) : res float :=
  let f := SF2Prim (binary_normalize prec emax z 0 false) in
  if PrimFloat.is_infinity f then Raise OverflowError else Ok f.

Definition signed_mantissa (s : bool) (m : positive) : Z :=
  if s then Z.neg m else Z.pos m.

(** [int(x)]: truncation towards zero. *)
Definition int_of_float (x : float) : res Z :=
  match Prim2SF x with
  | S754_zero _ => Ok 0
  | S754_finite s m e =>
      Ok (if 0 <=? e then signed_mantissa s m * 2 ^ e
          else Z.quot (signed_mantissa s m) (2 ^ (- e)))
  | S754_infinity _ => Raise OverflowError
  | S754_nan => Raise ValueError
  end.

(** [int(np.ceil(x))] *)
Definition ceil_of_float (x : float) : res Z :=
  match Prim2SF x with
  | S754_zero _ => Ok 0
  | S754_finite s m e =>
      Ok (if 0 <=? e then signed_mantissa s m * 2 ^ e
          else - ((- signed_mantissa s m) / 2 ^ (- e)))
  | S754_infinity _ => Raise OverflowError
  | S754_nan => Raise ValueError
  end.

(** [str.isspace] on the ASCII range: TAB..CR, FS..US and the space. *)
Definition is_space (c : ascii) : bool :=
  let n := nat_of_ascii c in
  ((9 <=? n)%nat && (n <=? 13)%nat) || ((28 <=? n)%nat && (n <=? 32)%nat).

(** [s.rstrip()] *)
Fixpoint rstrip (s : string) : string :=
  match s with
  | EmptyString => EmptyString
  | String c t =>
      match rstrip t with
      | EmptyString => if is_space c then EmptyString else String c EmptyString
      | t' => String c t'
      end
  end.

(** [s.split(sep)] for a one-character separator. *)
Fixpoint split (sep : ascii) (s : string) : list string :=
  match s with
  | EmptyString => [EmptyString]
  | String c t =>
      if Ascii.eqb c sep then EmptyString :: split sep t
      else match split sep t with
           | h :: r => String c h :: r
           | [] => [String c EmptyString]
           end
  end.

(** [l[i] = v] on a Python list: the index as for [getitem]. *)
Definition setitem {A} (l : list A) (i : Z) (v : A) : res (list A) :=
  let n := Z.of_nat (length l) in
  let j := if i <? 0 then i + n else i in
  if (0 <=? j) && (j <? n) then Ok (<[Z.to_nat j := v]> l) else Raise IndexError.

(** [range(start, stop, -1)] *)
Definition range_down (start stop : Z) : list Z :=
  map (fun j => start - Z.of_nat j) (seq 0 (Z.to_nat (start - stop))).

(** [c in s] for a one-character string [c]. *)
Fixpoint contains (c : ascii) (s : string) : bool :=
  match s with
  | EmptyString => false
  | String a t => Ascii.eqb a c || contains c t
  end.

(** [sep.join(parts)] for a one-character separator. *)
Fixpoint join (sep : ascii) (parts : list string) : string :=
  match parts with
  | [] => EmptyString
  | [p] => p
  | p :: rest => (p ++ String sep (join sep rest))%string
  end.

(** [str(z)], also what ['{}'.format(z)] writes for an integer. *)
Definition str_of_int (z : Z) : string := NilZero.string_of_int (Z.to_int z).

End Py.

Import Py.

Declare Scope py_scope.
Delimit Scope py_scope with py.
Notation "x <- m ;; k" := (Py.bind m (fun x => k))
  (at level 100, m at next level, right associativity) : py_scope.
Open Scope py_scope.

(* ===================================================================== *)
(** ** audio_recorder.py *)
(* ===================================================================== *)

Module audio_recorder.

(** Raw audio as PyAudio delivers it: a byte string. *)
Definition bytes : Type := list Byte.byte.

(** An entry of the raw audio queue: [(in_data, time.time())]. *)
Definition item : Type := (bytes * Q)%type.

(** [queue.Queue(maxsize)]: a FIFO, unbounded when [maxsize <= 0]. *)
Record Queue : Type := MkQueue { maxsize : Z; items : list item }.

Definition qsize (q : Queue) : Z := Z.of_nat (length (items q)).

(** [Queue.put(x, block=False)] *)
Definition put_nowait (q : Queue) (x : item) : res Queue :=
  if (0 <? maxsize q) && (maxsize q <=? qsize q) then Raise QueueFull
  else Ok (MkQueue (maxsize q) (items q ++ [x])).

(** Class attributes of [AudioRecorder]. *)
Definition frames_per_chunk : Z := 1024.
Definition max_queue_chunks : Z := 1200.
Definition timeout_factor : Z := 4.

(** The fields of an [AudioRecorder] the modelled methods read. *)
Record AudioRecorder : Type := MkRecorder {
  _downsample_factor : Z;
  _raw_audio_sample_rate_hz : Z;
  audio_sample_rate_hz : Z;
  _raw_audio_queue : Queue
}.

Definition set_queue (r : AudioRecorder) (q : Queue) : AudioRecorder :=
  MkRecorder (_downsample_factor r) (_raw_audio_sample_rate_hz r)
             (audio_sample_rate_hz r) q.

(** One call of [Queue.get(timeout=...)], as the consumer sees it. *)
Record get_event : Type := GetEvent { ev_timeout : Q; ev_item : option item }.

(** What surrounds the recorder: the clock read by [time.time()], whether
    the PyAudio stream is active, the chunks the capture callback will
    deliver while the consumer waits on an empty queue (each with the delay
    after which it arrives), and the record of the calls of [Queue.get]. *)
Record Env : Type := MkEnv {
  clock : Q;
  stream_active : bool;
  producer : list (Q * bytes);
  get_log : list get_event
}.

Definition log_get (e : Env) (ev : get_event) : Env :=
  MkEnv (clock e) (stream_active e) (producer e) (get_log e ++ [ev]).

(** Computations on the recorder and its environment, with exceptions. *)
Definition St : Type := (AudioRecorder * Env)%type.
Definition M (A : Type) : Type := St -> res A * St.

Definition ret {A} (a : A) : M A := fun s => (Ok a, s).
Definition throw {A} (e : exn) : M A := fun s => (Raise e, s).
Definition mbind {A B} (m : M A) (k : A -> M B) : M B :=
  fun s =>
    match m s with
    | (Ok a, s') => k a s'
    | (Raise e, s') => (Raise e, s')
    end.
Definition lift {A} (r : res A) : M A := fun s => (r, s).

(** [AudioRecorder.__init__] *)
Definition init (raw_audio_sample_rate_hz downsample_factor : Z) : res AudioRecorder :=
  if downsample_factor =? 0 then Raise ZeroDivisionError
  else Ok (MkRecorder downsample_factor raw_audio_sample_rate_hz
                      (raw_audio_sample_rate_hz / downsample_factor)
                      (MkQueue max_queue_chunks [])).

(** [_chunk_duration_seconds] *)
Definition _chunk_duration_seconds (r : AudioRecorder) : res Q :=
  if _raw_audio_sample_rate_hz r =? 0 then Raise ZeroDivisionError
  else Ok (inject_Z frames_per_chunk / inject_Z (_raw_audio_sample_rate_hz r))%Q.

(** [_enqueue_raw_audio]: the non-blocking put of the capture callback. *)
Definition _enqueue_raw_audio (in_data : bytes) : M unit :=
  fun '(r, e) =>
    match put_nowait (_raw_audio_queue r) (in_data, clock e) with
    | Ok q' => (Ok tt, (set_queue r q', e))
    | Raise _ => (Raise (TimeoutError RawAudioBufferFull), (r, e))
    end.

(** [self._raw_audio_queue.get(timeout=timeout)]: [ValueError] for a
    negative timeout; the oldest chunk if there is one; otherwise the call
    waits for the capture callback, and raises [queue.Empty] when nothing
    arrives within [timeout]. *)
Definition queue_get (timeout : Q) : M item :=
  fun '(r, e) =>
    let q := _raw_audio_queue r in
    if negb (Qle_bool 0 timeout) then (Raise ValueError, (r, e))
    else
    match items q with
    | x :: rest =>
        (Ok x, (set_queue r (MkQueue (maxsize q) rest), log_get e (GetEvent timeout (Some x))))
    | [] =>
          match producer e with
          | (delay, data) :: later =>
              if Qle_bool delay timeout then
                let now := (clock e + delay)%Q in
                let x := (data, now) in
                (Ok x, (r, MkEnv now (stream_active e) later
                                 (get_log e ++ [GetEvent timeout (Some x)])))
              else
                (Raise QueueEmpty,
                 (r, MkEnv (clock e + timeout)%Q (stream_active e)
                           (((delay - timeout)%Q, data) :: later)
                           (get_log e ++ [GetEvent timeout None])))
          | [] =>
              (Raise QueueEmpty,
               (r, MkEnv (clock e + timeout)%Q (stream_active e) []
                         (get_log e ++ [GetEvent timeout None])))
          end
    end.

(** One little-endian signed 16-bit sample. *)
Definition int16_of_bytes (lo hi : Byte.byte) : Z :=
  let u := Z.of_N (Byte.to_N lo) + 256 * Z.of_N (Byte.to_N hi) in
  if u <? 32768 then u else u - 65536.

(** [np.fromstring(raw_data, np.int16)]: [ValueError] when the length is
    not a multiple of the sample size. *)
Fixpoint fromstring_int16 (raw : bytes) : res (list Z) :=
  match raw with
  | [] => Ok []
  | lo :: hi :: rest =>
      r <- fromstring_int16 rest ;; Ok (int16_of_bytes lo hi :: r)
  | [_] => Raise ValueError
  end.

(** [_get_chunk]: the samples of the next chunk, one column, and its
    timestamp. *)
Definition _get_chunk (timeout : Q) : M (list Z * Q) :=
  mbind (queue_get timeout) (fun '(raw_data, timestamp) =>
  mbind (lift (fromstring_int16 raw_data)) (fun array_data =>
  ret (array_data, timestamp))).

(** [[self._get_chunk(timeout=timeout) for _ in range(n)]] *)
Fixpoint get_chunks (n : nat) (timeout : Q) : M (list (list Z * Q)) :=
  match n with
  | O => ret []
  | S n' =>
      mbind (_get_chunk timeout) (fun c =>
      mbind (get_chunks n' timeout) (fun cs =>
      ret (c :: cs)))
  end.

(** [math.ceil(a / b)] for integers [a] and [b > 0].  Python divides in
    binary64; for [b] a power of two, as here, and [|a| < 2^53] the
    quotient is exact and this is its ceiling. *)
Definition ceil_div (a b : Z) : Z := - ((- a) / b).

(** The number of chunks [get_audio] asks for. *)
Definition num_audio_chunks (r : AudioRecorder) (num_audio_frames : Z) : Z :=
  let n := ceil_div (num_audio_frames * _downsample_factor r) frames_per_chunk in
  if n <? 1 then 1 else n.

(** The timeout [get_audio] passes to every [_get_chunk]. *)
Definition chunk_timeout (r : AudioRecorder) : res Q :=
  d <- _chunk_duration_seconds r ;; Ok (inject_Z timeout_factor * d)%Q.

(** [audio * 0.5] on 16-bit samples: exact in binary64. *)
Definition half (x : Z) : Q := (inject_Z x * (1 # 2))%Q.

(** [get_audio]: [(audio, first_timestamp, last_timestamp)]. *)
Definition get_audio (num_audio_frames : Z) : M (list Q * Q * Q) :=
  fun '(r, e) =>
    let n := num_audio_chunks r num_audio_frames in
    match chunk_timeout r with
    | Raise err => (Raise err, (r, e))
    | Ok timeout =>
        match get_chunks (Z.to_nat n) timeout (r, e) with
        | (Raise QueueEmpty, s) => (Raise (TimeoutError (CaptureTimedOut timeout)), s)
        | (Raise err, s) => (Raise err, s)
        | (Ok got, s) =>
            let chunks := map fst got in
            let timestamps := map snd got in
            let audio := concat chunks in
            let result :=
              audio <- (if _downsample_factor r =? 1 then Ok audio
                        else slice_step audio (_downsample_factor r)) ;;
              t0 <- getitem timestamps 0 ;;
              t1 <- getitem timestamps (-1) ;;
              Ok (map half audio, t0, t1) in
            (result, s)
        end
    end.

(** [clear_queue]: every [get()] finds a chunk, so none of them waits. *)
Definition clear_queue : M unit :=
  fun '(r, e) =>
    (Ok tt, (set_queue r (MkQueue (maxsize (_raw_audio_queue r)) []), e)).

(** The calls that touch the queue, as a producer and a consumer issue
    them. *)
Inductive op : Type :=
| Enqueue (in_data : bytes)
| Dequeue (timeout : Q)
| GetAudio (num_audio_frames : Z)
| ClearQueue.

Definition step (o : op) (s : St) : St :=
  match o with
  | Enqueue d => snd (_enqueue_raw_audio d s)
  | Dequeue t => snd (_get_chunk t s)
  | GetAudio n => snd (get_audio n s)
  | ClearQueue => snd (clear_queue s)
  end.

Definition run (ops : list op) (s : St) : St := fold_left (fun s o => step o s) ops s.

End audio_recorder.

(* ===================================================================== *)
(** ** model.py: command table and classification loop *)
(* ===================================================================== *)

Module model.

Import audio_recorder.

(** *** Arrays *)

(** The floating-point values numpy computes with, and the operations the
    extractor applies to them.  Every operation is total: numpy's
    arithmetic on arrays follows IEEE 754, a zero divisor gives an
    infinity or a NaN and a warning, never an exception.  [f_to_int] is
    the conversion to an integer that [astype] performs, whatever it
    yields on a NaN. *)
Class NumpyFloat (F : Type) : Type := {
  f_of_Q : Q -> F;
  f_add : F -> F -> F;
  f_sub : F -> F -> F;
  f_mul : F -> F -> F;
  f_div : F -> F -> F;
  f_sqrt : F -> F;
  f_minimum : F -> F -> F;
  f_maximum : F -> F -> F;
  f_to_int : F -> Z
}.

Definition f_of_Z {F} `{NumpyFloat F} (z : Z) : F := f_of_Q (inject_Z z).

(** References to array objects. *)
Abbreviation loc := positive.

Inductive ndarray (F : Type) : Type :=
| FloatArray (rows : list (list F))
| Uint8Array (rows : list (list Z)).
Arguments FloatArray {F} rows.
Arguments Uint8Array {F} rows.

Section Extractor.

Context {F : Type} `{NumpyFloat F}.

(** [mel_features.log_mel_spectrogram], on the samples and the sample rate,
    with the window, hop, mel-bin and band-edge arguments that
    [_compute_spectrogram] passes. *)
Variable log_mel_spectrogram : list Q -> Z -> list (list F).

Definition matrix : Type := list (list F).
Abbreviation heap := (gmap loc (ndarray F)).

(** A new array object. *)
Definition alloc (h : heap) (a : ndarray F) : loc * heap :=
  let l := fresh (dom h) in (l, <[l := a]> h).

Definition read_float (h : heap) (l : loc) : res matrix :=
  match h !! l with
  | Some (FloatArray rows) => Ok rows
  | _ => Raise AttributeError
  end.

Definition ncols (a : matrix) : nat := length (hd [] a).

(** Whether [v] can be stored in [rows] rows of the array [a]. *)
Definition fits (a : matrix) (rows : nat) (v : matrix) : bool :=
  (length v =? rows)%nat && forallb (fun r => (length r =? ncols a)%nat) v.

(** [a[:b] = v] and [a[b:] = v]: the shapes must agree ([ValueError]
    otherwise; an operand that numpy would broadcast from a size-one axis
    is not modelled). *)
Definition setitem_to (a : matrix) (b : Z) (v : matrix) : res matrix :=
  let n := slice_bound (Z.of_nat (length a)) b in
  if fits a n v then Ok (v ++ drop n a) else Raise ValueError.

Definition setitem_from (a : matrix) (b : Z) (v : matrix) : res matrix :=
  let n := slice_bound (Z.of_nat (length a)) b in
  if fits a (length a - n) v then Ok (take n a ++ v) else Raise ValueError.

(** [np.add.reduce(a, axis=0)] *)
Definition sum_axis0 (a : matrix) : list F :=
  match a with
  | [] => []
  | r :: rest => fold_left (zip_with f_add) rest r
  end.

(** [np.mean(a, axis=0)] *)
Definition mean_axis0 (a : matrix) : list F :=
  map (fun s => f_div s (f_of_Z (Z.of_nat (length a)))) (sum_axis0 a).

(** [a - v], [a / v] with [v] broadcast over the rows. *)
Definition sub_rows (a : matrix) (v : list F) : matrix := map (fun r => zip_with f_sub r v) a.
Definition div_rows (a : matrix) (v : list F) : matrix := map (fun r => zip_with f_div r v) a.

(** [np.std(a, axis=0)] *)
Definition std_axis0 (a : matrix) : list F :=
  let d := sub_rows a (mean_axis0 a) in
  let sq := map (map (fun x => f_mul x x)) d in
  map f_sqrt (mean_axis0 sq).

(** [np.maximum(0, np.minimum(255, x)).astype(np.uint8)] on one entry. *)
Definition to_uint8 (x : F) : Z :=
  f_to_int (f_maximum (f_of_Z 0) (f_minimum (f_of_Z 255) x)) mod 256.

(** *** Uint8LogMelFeatureExtractor *)

Definition spectrogram_window_length_seconds : float := 0.025%float.
Definition spectrogram_hop_length_seconds : float := 0.010%float.

Record Uint8LogMelFeatureExtractor : Type := MkExtractor {
  num_mel_bins : Z;
  frame_length_spectra : Z;
  frame_hop_spectra : Z;
  _norm_factor : Z;
  _audio_buffer : list Q;
  _spectrogram : loc
}.

Definition set_audio_buffer (x : Uint8LogMelFeatureExtractor) (b : list Q) :=
  MkExtractor (num_mel_bins x) (frame_length_spectra x) (frame_hop_spectra x)
              (_norm_factor x) b (_spectrogram x).

(** The objects a call of the extractor works on: the extractor, the array
    objects, the recorder and its environment. *)
Record World : Type := MkWorld {
  extractor : Uint8LogMelFeatureExtractor;
  arrays : heap;
  recorder : audio_recorder.St
}.

(** [__init__] with [_clear_buffers]: [198 % num_frames_hop] raises
    [ZeroDivisionError] for a zero hop. *)
Definition new_extractor (num_frames_hop : Z) (h : heap)
  : res (Uint8LogMelFeatureExtractor * heap) :=
  if num_frames_hop =? 0 then Raise ZeroDivisionError
  else if negb (198 mod num_frames_hop =? 0) then Raise ValueError
  else
    let '(l, h') := alloc h (FloatArray (replicate 198 (replicate 32 (f_of_Z 0)))) in
    Ok (MkExtractor 32 198 num_frames_hop 3 [] l, h').

(** [_spectrogram_underlap_samples] *)
Definition _spectrogram_underlap_samples (audio_sample_rate_hz : Z) : res Z :=
  r <- float_of_int audio_sample_rate_hz ;;
  int_of_float ((spectrogram_window_length_seconds - spectrogram_hop_length_seconds) * r)%float.

(** [_frame_duration_seconds] *)
Definition _frame_duration_seconds (num_spectra : Z) : res float :=
  n <- float_of_int (num_spectra - 1) ;;
  Ok (spectrogram_window_length_seconds + n * spectrogram_hop_length_seconds)%float.

(** [required_num_samples] of [_get_next_spectra]. *)
Definition required_num_samples (num_spectra audio_sample_rate_hz : Z) : res Z :=
  d <- _frame_duration_seconds num_spectra ;;
  r <- float_of_int audio_sample_rate_hz ;;
  ceil_of_float (d * r)%float.

(** [np.log(1e-3)], the binary64 nearest to the logarithm. *)
Definition log_1e_3 : Q := (- 6907755278982137 # 1000000000000000)%Q.

(** [_compute_spectrogram] *)
Definition _compute_spectrogram (audio_samples : list Q) (audio_sample_rate_hz : Z) : matrix :=
  let samples := map (fun x => (x / inject_Z (2 ^ 15))%Q) audio_samples in
  map (map (fun x => f_mul (f_of_Z 30) (f_sub x (f_of_Q log_1e_3))))
      (log_mel_spectrogram samples audio_sample_rate_hz).

(** The first half of [_get_next_spectra], up to the assignment of
    [self._audio_buffer]: the audio in hand and the number of samples the
    spectrogram is computed from. *)
Definition _gather_audio (num_spectra : Z) (w : World) : res (list Q * Z) * World :=
  let x := extractor w in
  let rate := audio_sample_rate_hz (fst (recorder w)) in
  match required_num_samples num_spectra rate with
  | Raise e => (Raise e, w)
  | Ok required =>
      match get_audio (required - Z.of_nat (length (_audio_buffer x))) (recorder w) with
      | (Raise e, s) => (Raise e, MkWorld x (arrays w) s)
      | (Ok (audio, _, _), s) =>
          let audio_samples := _audio_buffer x ++ audio in
          match _spectrogram_underlap_samples rate with
          | Raise e => (Raise e, MkWorld x (arrays w) s)
          | Ok underlap =>
              (Ok (audio_samples, required),
               MkWorld (set_audio_buffer x (slice_from audio_samples (required - underlap)))
                       (arrays w) s)
          end
      end
  end.

(** [_get_next_spectra] *)
Definition _get_next_spectra (num_spectra : Z) (w : World) : res matrix * World :=
  match _gather_audio num_spectra w with
  | (Raise e, w') => (Raise e, w')
  | (Ok (audio_samples, required), w') =>
      let spectrogram :=
        _compute_spectrogram (slice_to audio_samples required)
                             (audio_sample_rate_hz (fst (recorder w'))) in
      if Z.of_nat (length spectrogram) =? num_spectra then (Ok spectrogram, w')
      else (Raise AssertionError, w')
  end.

Definition set_arrays (w : World) (h : heap) : World :=
  MkWorld (extractor w) h (recorder w).

(** The normalisation at the end of [get_next_spectrogram], on the copy. *)
Definition normalise (norm_factor : Z) (spectrogram : matrix) : matrix :=
  let spectrogram := sub_rows spectrogram (mean_axis0 spectrogram) in
  if norm_factor =? 0 then spectrogram
  else
    let spectrogram :=
      div_rows spectrogram (map (f_mul (f_of_Z norm_factor)) (std_axis0 spectrogram)) in
    let spectrogram := map (map (fun v => f_add v (f_of_Z 1))) spectrogram in
    map (map (fun v => f_mul v (f_of_Q (1275 # 10)))) spectrogram.

(** [get_next_spectrogram]: a reference to the returned array. *)
Definition get_next_spectrogram (w : World) : res loc * World :=
  let x := extractor w in
  let hop := frame_hop_spectra x in
  if negb (stream_active (snd (recorder w))) then (Raise AssertionError, w)
  else
    match read_float (arrays w) (_spectrogram x) with
    | Raise e => (Raise e, w)
    | Ok a =>
        (* self._spectrogram[:-hop] = self._spectrogram[hop:] *)
        match setitem_to a (- hop) (slice_from a hop) with
        | Raise e => (Raise e, w)
        | Ok a1 =>
            let w1 := set_arrays w (<[_spectrogram x := FloatArray a1]> (arrays w)) in
            (* self._spectrogram[-hop:] = self._get_next_spectra(recorder, hop) *)
            match _get_next_spectra hop w1 with
            | (Raise e, w2) => (Raise e, w2)
            | (Ok spectra, w2) =>
                match setitem_from a1 (- hop) spectra with
                | Raise e => (Raise e, w2)
                | Ok a2 =>
                    let h2 := <[_spectrogram x := FloatArray a2]> (arrays w2) in
                    (* spectrogram = self._spectrogram.copy() *)
                    let '(c, h3) := alloc h2 (FloatArray a2) in
                    (* the in-place updates of the copy *)
                    let h4 := <[c := FloatArray (normalise (_norm_factor x) a2)]> h3 in
                    (* np.maximum(0, np.minimum(255, spectrogram)).astype(np.uint8) *)
                    let '(r, h5) :=
                      alloc h4 (Uint8Array (map (map to_uint8) (normalise (_norm_factor x) a2))) in
                    (Ok r, set_arrays w2 h5)
                end
            end
        end
    end.


Definition column_sum (col : list F) : F :=
  match col with
  | [] => f_of_Z 0
  | x :: rest => fold_left f_add rest x
  end.

Definition column_mean (col : list F) : F :=
  f_div (column_sum col) (f_of_Z (Z.of_nat (length col))).

Definition column_std (col : list F) : F :=
  f_sqrt (column_mean (map (fun x => let d := f_sub x (column_mean col) in f_mul d d) col)).

Definition spec_normalise_column (norm_divisor : Z) (col : list F) : list Z :=
  let centred := map (fun x => f_sub x (column_mean col)) col in
  let scaled :=
    if norm_divisor =? 0 then centred
    else map (fun x => f_mul (f_add (f_div x (f_mul (f_of_Z norm_divisor) (column_std centred)))
                                    (f_of_Z 1))
                             (f_of_Q (1275 # 10))) centred in
  map to_uint8 scaled.




End Extractor.

(** Exact arithmetic with the IEEE special values, to run the extractor
    on sample data. *)
#[export] Instance exact_float : NumpyFloat pyfloat := {
  f_of_Q := PyFin;
  f_add := float_add;
  f_sub := float_sub;
  f_mul := float_mul;
  f_div := float_div;
  f_sqrt := float_sqrt;
  f_minimum := float_minimum;
  f_maximum := float_maximum;
  f_to_int := float_to_int
}.

(** *** Command table and classification loop *)

(** An entry of the [commands] dictionary: [{'key': key, 'conf': conf}]. *)
Record command : Type := Command { key : string; conf : pyfloat }.

(** The default confidence written in [read_commands]. *)
Definition default_conf : pyfloat := PyFin (4 # 10).

(** [read_labels]: the reserved label followed by the stripped lines. *)
Definition read_labels (lines : list string) : list string :=
  "negative"%string :: map rstrip lines.

(** [0 <= v <= 1] *)
Definition in_unit_interval (v : pyfloat) : bool :=
  float_le (PyFin 0%Q) v && float_le v (PyFin 1%Q).

(** [l.rstrip().split(',')] *)
Definition fields_of (line : string) : list string := split ","%char (rstrip line).

Section Commands.

(** Python's [float(str)]: [Raise ValueError] on a malformed literal. *)
Variable float_of_string : string -> res pyfloat.

(** One iteration of the loop of [read_commands] over the fields of a
    line.  Unpacking anything but three fields raises [ValueError]. *)
Definition add_command (fields : list string) (commands : gmap string command)
  : res (gmap string command) :=
  match fields with
  | [command; key; confidence] =>
      let commands := <[command := Command key default_conf]> commands in
      if String.eqb confidence EmptyString then Ok commands
      else
        v <- float_of_string confidence ;;
        if in_unit_interval v then
          v' <- float_of_string confidence ;;
          Ok (alter (fun c => Command (model.key c) v') command commands)
        else Ok commands
  | _ => Raise ValueError
  end.

(** [read_commands], on the lines [f.readlines()] returns. *)
Definition read_commands (lines : list string) : res (gmap string command) :=
  for_each add_command (map fields_of lines) ∅.

End Commands.

Section Classify.

(** [np.argsort]: the indices that sort a vector in ascending order.  The
    order among equal scores is left to the implementation. *)
Variable argsort : list pyfloat -> list Z.

Variable labels : list string.
Variable commands : gmap string command.
Variable negative_threshold : pyfloat.

(** Body of [for p in range(3)]. *)
Definition scan_rank (result : list pyfloat) (top3 : list Z) (p : Z) (detection : Z)
  : res Z :=
  i <- getitem top3 p ;;
  label <- getitem labels i ;;
  match commands !! label with
  | None => Ok detection
  | Some c =>
      if i =? 0 then Ok detection
      else
        s <- getitem result i ;;
        if float_lt (conf c) s then
          (if detection <? 0 then Ok i else Ok detection)
        else Ok detection
  end.

(** The candidate of a frame: [-1] for none. *)
Definition detect (result : list pyfloat) : res Z :=
  r0 <- getitem result 0 ;;
  if float_lt r0 negative_threshold then
    let top3 := slice_to (argsort (map float_neg result)) 3 in
    for_each (scan_rank result top3) [0; 1; 2] (-1)
  else Ok (-1).

(** What a dispatch prints and sends: the label and its trigger key. *)
Definition event : Type := (string * string)%type.

(** The two [if] statements after the candidate is known: the reset of
    [last_detection] and the call of the detection callback. *)
Definition dispatch (detection last_detection : Z) : res (option event * Z) :=
  let last_detection :=
    if (detection <? 0) && (0 <? last_detection) then 0 else last_detection in
  label <- getitem labels detection ;;
  match commands !! label with
  | Some c =>
      if negb (detection =? last_detection)
      then Ok (Some (label, key c), detection)
      else Ok (None, last_detection)
  | None => Ok (None, last_detection)
  end.

(** One iteration of the [while] loop on the score vector of a frame, with
    a detection callback installed. *)
Definition classify_frame (result : list pyfloat) (last_detection : Z)
  : res (option event * Z) :=
  detection <- detect result ;;
  dispatch detection last_detection.

(** The loop over the score vectors of successive frames: the events
    dispatched so far and the final [last_detection], or the exception
    that ended the loop. *)
Fixpoint classify_loop (results : list (list pyfloat)) (last_detection : Z)
  : list event * res Z :=
  match results with
  | [] => ([], Ok last_detection)
  | result :: rest =>
      match classify_frame result last_detection with
      | Raise e => ([], Raise e)
      | Ok (ev, last') =>
          let '(evs, final) := classify_loop rest last' in
          (match ev with Some e => e :: evs | None => evs end, final)
      end
  end.

(** The debounce alone, on the candidates of successive frames. *)
Fixpoint dispatch_loop (candidates : list Z) (last_detection : Z)
  : list event * res Z :=
  match candidates with
  | [] => ([], Ok last_detection)
  | d :: rest =>
      match dispatch d last_detection with
      | Raise e => ([], Raise e)
      | Ok (ev, last') =>
          let '(evs, final) := dispatch_loop rest last' in
          (match ev with Some e => e :: evs | None => evs end, final)
      end
  end.

End Classify.

(** [last_detection = -1] before the loop. *)
Definition initial_detection : Z := -1.

(** A stable argsort (insertion sort), as numpy's for short vectors; NaN
    sorts last. *)
Definition sorts_before (x y : pyfloat) : bool :=
  match x, y with
  | PyNaN, _ => false
  | _, PyNaN => true
  | _, _ => float_lt x y
  end.

Fixpoint insert_sorted (x : Z * pyfloat) (l : list (Z * pyfloat)) : list (Z * pyfloat) :=
  match l with
  | [] => [x]
  | y :: t => if sorts_before (snd x) (snd y) then x :: y :: t else y :: insert_sorted x t
  end.

Definition np_argsort (v : list pyfloat) : list Z :=
  map fst (fold_left (fun acc x => insert_sorted x acc)
                     (combine (map Z.of_nat (seq 0 (length v))) v) []).

(** Whether the label at index [i] passes the candidate filter of
    [classify_audio]: a nonzero index, a label of the command table, a
    score above its confidence. *)
Definition passes (labels : list string) (commands : gmap string command)
    (result : list pyfloat) (i : Z) : bool :=
  negb (i =? 0) &&
  match getitem labels i with
  | Ok label =>
      match commands !! label, getitem result i with
      | Some c, Ok s => float_lt (conf c) s
      | _, _ => false
      end
  | Raise _ => false
  end.

(** [make_interpreter]: the model path and the device option of the Edge
    TPU delegate that [model_file, *device = model_file.split('@')]
    yields. *)
Definition make_interpreter_args (model_file : string) : res (string * option string) :=
  match split "@"%char model_file with
  | path :: device => Ok (path, head device)
  | [] => Raise ValueError
  end.

End model.


(* ===================================================================== *)
(** ** run_model.py *)
(* ===================================================================== *)

Module run_model.

Import model.

(** What [print_results] writes for a rank: the label and its score, in
    bold between stars or plain. *)
Inductive printed : Type :=
| Highlighted (label : string) (score : pyfloat)
| Plain (label : string) (score : pyfloat).

Section PrintResults.

Variable argsort : list pyfloat -> list Z.

(** Body of [for p in range(top)]. *)
Definition print_rank (labels : list string) (commands : gmap string command)
    (result : list pyfloat) (top_results : list Z) (p : Z) (out : list printed)
  : res (list printed) :=
  i <- getitem top_results p ;;
  l <- getitem labels i ;;
  let threshold :=
    match commands !! l with
    | Some c => conf c
    | None => PyFin (5 # 10)
    end in
  s <- getitem result i ;;
  if negb (i =? 0) && float_lt threshold s then Ok (out ++ [Highlighted l s])
  else if float_lt (PyFin (5 # 1000)) s then Ok (out ++ [Plain l s])
  else Ok out.

(** [print_results(result, commands, labels)] with [top=3]: one line. *)
Definition print_results (result : list pyfloat) (commands : gmap string command)
    (labels : list string) : res (list printed) :=
  let top_results := slice_to (argsort (map float_neg result)) 3 in
  for_each (print_rank labels commands result top_results) [0; 1; 2] [].

End PrintResults.

End run_model.

(* ===================================================================== *)
(** ** run_yt_voice_control.py *)
(* ===================================================================== *)

Module run_yt_voice_control.

(** What PyKeyboard is given: a one-character string or one of its key
    codes. *)
Inductive key : Type :=
| Character (c : string)
| left_key
| right_key
| up_key
| down_key
| shift_key.

(** The calls [run_command] makes, and its message on the console. *)
Inductive action : Type :=
| tap_key (k : key)
| press_keys (ks : list key)
| print_cant_parse (command : string).

Definition _command_lookup (name : string) : option key :=
  if String.eqb name "left" then Some left_key
  else if String.eqb name "right" then Some right_key
  else if String.eqb name "up" then Some up_key
  else if String.eqb name "down" then Some down_key
  else if String.eqb name "shift" then Some shift_key
  else None.

(** The loop [for key in keys] of [run_command]: [press_keys] is called
    inside the loop, after every key that parses. *)
Fixpoint press_each (command : string) (keys : list string) (press_list : list key)
  : list action :=
  match keys with
  | [] => []
  | k :: rest =>
      if (String.length k =? 1)%nat then
        let press_list := press_list ++ [Character k] in
        press_keys press_list :: press_each command rest press_list
      else
        match _command_lookup k with
        | Some c =>
            let press_list := press_list ++ [c] in
            press_keys press_list :: press_each command rest press_list
        | None => [print_cant_parse command]
        end
  end.

(** [YoutubeControl.run_command] *)
Definition run_command (command : string) : list action :=
  if (String.length command =? 1)%nat then [tap_key (Character command)]
  else
    match _command_lookup command with
    | Some k => [tap_key k]
    | None =>
        if contains "+"%char command then press_each command (split "+"%char command) []
        else []
    end.

(** The key a part of a combination stands for, if any. *)
Definition key_of (part : string) : option key :=
  if (String.length part =? 1)%nat then Some (Character part) else _command_lookup part.

End run_yt_voice_control.

(* ===================================================================== *)
(** ** run_hearing_snake.py *)
(* ===================================================================== *)

Module run_hearing_snake.

Definition NUMBER_OF_SCORES_TO_KEEP : Z := 10.

(** *** Player *)

Module Player.

Definition block_size : Z := 30.
Definition step : Z := block_size.
Definition _update_count_max : Z := 2.

(** The fields of a [Player] that the movement reads and writes (the
    images are left out). *)
Record t : Type := Make {
  x : list Z;
  y : list Z;
  _direction : Z;
  length : Z;
  traveled_dist : Z;
  _display_width : Z;
  _display_height : Z;
  _update_count : Z;
  _need_immediate_pos_update : bool
}.

Definition set_xy (p : t) (x' y' : list Z) : t :=
  Make x' y' (_direction p) (length p) (traveled_dist p) (_display_width p)
       (_display_height p) (_update_count p) (_need_immediate_pos_update p).


(** Body of [for i in range(self.length - 1, 0, -1)]. *)
Definition follow (i : Z) (xy : list Z * list Z) : res (list Z * list Z) :=
  xv <- getitem (fst xy) (i - 1) ;;
  x' <- setitem (fst xy) i xv ;;
  yv <- getitem (snd xy) (i - 1) ;;
  y' <- setitem (snd xy) i yv ;;
  Ok (x', y').

(** The four [if] statements that move the head. *)
Definition move_head (p : t) (xy : list Z * list Z) : res (list Z * list Z) :=
  x1 <- (if _direction p =? 0 then
           x0 <- getitem (fst xy) 0 ;;
           x' <- setitem (fst xy) 0 (x0 + step) ;;
           x0 <- getitem x' 0 ;;
           if x0 >? _display_width p then setitem x' 0 (x0 - _display_width p - step)
           else Ok x'
         else Ok (fst xy)) ;;
  x2 <- (if _direction p =? 1 then
           x0 <- getitem x1 0 ;;
           x' <- setitem x1 0 (x0 - step) ;;
           x0 <- getitem x' 0 ;;
           if x0 <? 0 then setitem x' 0 (x0 + _display_width p) else Ok x'
         else Ok x1) ;;
  y1 <- (if _direction p =? 2 then
           y0 <- getitem (snd xy) 0 ;;
           y' <- setitem (snd xy) 0 (y0 - step) ;;
           y0 <- getitem y' 0 ;;
           if y0 <? 0 then setitem y' 0 (y0 + _display_height p) else Ok y'
         else Ok (snd xy)) ;;
  y2 <- (if _direction p =? 3 then
           y0 <- getitem y1 0 ;;
           y' <- setitem y1 0 (y0 + step) ;;
           y0 <- getitem y' 0 ;;
           if y0 >? _display_height p then setitem y' 0 (y0 - _display_height p - step)
           else Ok y'
         else Ok y1) ;;
  Ok (x2, y2).

(** [update_position_immediately] *)
Definition update_position_immediately (p : t) : res t :=
  xy <- for_each follow (range_down (length p - 1) 0) (x p, y p) ;;
  xy <- move_head p xy ;;
  Ok (Make (fst xy) (snd xy) (_direction p) (length p) (traveled_dist p + step)
           (_display_width p) (_display_height p) (_update_count p)
           (_need_immediate_pos_update p)).

(** [update] *)
Definition update (p : t) : res t :=
  let count := _update_count p + 1 in
  if _need_immediate_pos_update p || (count >? _update_count_max) then
    q <- update_position_immediately
           (Make (x p) (y p) (_direction p) (length p) (traveled_dist p)
                 (_display_width p) (_display_height p) count
                 (_need_immediate_pos_update p)) ;;
    Ok (Make (x q) (y q) (_direction q) (length q) (traveled_dist q)
             (_display_width q) (_display_height q) 0 false)
  else
    Ok (Make (x p) (y p) (_direction p) (length p) (traveled_dist p)
             (_display_width p) (_display_height p) count
             (_need_immediate_pos_update p)).





(** [grow] *)
Definition grow (p : t) : t :=
  Make (x p) (y p) (_direction p) (length p + 1) (traveled_dist p) (_display_width p)
       (_display_height p) (_update_count p) (_need_immediate_pos_update p).

(** [is_collision]: whether the head lies in block [block_index]. *)
Definition is_collision (p : t) (block_index : Z) : res bool :=
  x0 <- getitem (x p) 0 ;;
  xb <- getitem (x p) block_index ;;
  if (xb <=? x0) && (x0 <? xb + block_size) then
    y0 <- getitem (y p) 0 ;;
    yb <- getitem (y p) block_index ;;
    Ok ((yb <=? y0) && (y0 <? yb + block_size))
  else Ok false.




End Player.

(** *** Game: the best scores *)

(** [_best_scores_to_text] *)
Definition rank_name (idx : nat) : string :=
  match idx with
  | 0%nat => "1st"
  | 1%nat => "2nd"
  | 2%nat => "3rd"
  | _ => (str_of_int (Z.of_nat idx + 1) ++ "th")%string
  end.

Fixpoint scores_to_text (idx : nat) (best_scores : list Z) : string :=
  match best_scores with
  | [] => EmptyString
  | score :: rest =>
      if score =? 0 then EmptyString
      else (rank_name idx ++ ": " ++ str_of_int score ++ " points
" ++ scores_to_text (S idx) rest)%string
  end.

Definition _best_scores_to_text (best_scores : list Z) : string :=
  scores_to_text 0 best_scores.

(** [for rank, best_score in enumerate(self.best_scores)], left at the
    first entry the score beats. *)
Fixpoint enumerate_until (score : Z) (best_scores : list Z) (idx rank : Z) : Z :=
  match best_scores with
  | [] => rank
  | best_score :: rest =>
      if score >? best_score then idx else enumerate_until score rest (idx + 1) idx
  end.

(** [list.insert(i, v)] for [0 <= i]. *)
Definition list_insert (i : Z) (v : Z) (l : list Z) : list Z :=
  take (Z.to_nat i) l ++ v :: drop (Z.to_nat i) l.

(** [_update_gameover_text]: the new best scores and the text. *)
Definition _update_gameover_text (score : Z) (best_scores : list Z)
  : res (list Z * string) :=
  best <- getitem best_scores 0 ;;
  r <- (if score >? best then
          Ok (slice_to (list_insert 0 score best_scores) NUMBER_OF_SCORES_TO_KEEP,
              ("You've beaten the best score with " ++ str_of_int score ++ " points!!!")%string)
        else
          worst <- getitem best_scores (Z.of_nat (length best_scores) - 1) ;;
          if score >? worst then
            let rank := enumerate_until score best_scores 0 NUMBER_OF_SCORES_TO_KEEP in
            Ok (slice_to (list_insert rank score best_scores) NUMBER_OF_SCORES_TO_KEEP,
                ("You've entered the hall of fame with " ++ str_of_int score ++
                 " points at rank " ++ str_of_int (rank + 1) ++ "!")%string)
          else
            Ok (best_scores,
                ("You lose! Your score: " ++ str_of_int score ++ " points.")%string)) ;;
  Ok (fst r,
      (snd r ++ "
" ++ _best_scores_to_text (fst r) ++ "

Say 'launch game' to start over!")%string).

(** Best first. *)
Fixpoint descending (l : list Z) : Prop :=
  match l with
  | [] => True
  | a :: rest => match rest with [] => True | b :: _ => b <= a end /\ descending rest
  end.

End run_hearing_snake.

(* ===================================================================== *)
(** ** Sample data *)
(* ===================================================================== *)

Module sample.

Import audio_recorder model.

(** A label table as [read_labels] builds it, and a command table that
    names its last label. *)
Definition labels : list string := read_labels ["left
"; "right
"]%string.

Definition commands : gmap string command :=
  <["left"%string := Command "KEY_LEFT" default_conf]>
  (<["right"%string := Command "KEY_RIGHT" default_conf]> ∅).

Definition threshold : pyfloat := PyFin (6 # 10).

(** Score vectors: one that ranks "left" first, one that ranks "right"
    first, one where the negative label wins. *)
Definition frame_left : list pyfloat := [PyFin (1 # 10); PyFin (8 # 10); PyFin (1 # 10)].
Definition frame_right : list pyfloat := [PyFin (1 # 10); PyFin (1 # 10); PyFin (8 # 10)].
Definition frame_none : list pyfloat := [PyFin (9 # 10); PyFin (5 # 100); PyFin (5 # 100)].

(** The scenario of the negative threshold: four labels, the last one a
    command. *)
Definition labels4 : list string := read_labels ["up
"; "down
"; "stop
"]%string.
Definition commands4 : gmap string command :=
  <["stop"%string := Command "KEY_SPACE" default_conf]> ∅.
Definition frame_stop : list pyfloat :=
  [PyFin (1 # 10); PyFin (1 # 10); PyFin (1 # 10); PyFin (7 # 10)].
Definition frame_negative : list pyfloat :=
  [PyFin (9 # 10); PyFin (5 # 100); PyFin (3 # 100); PyFin (2 # 100)].

(** A command table that also names the reserved label. *)
Definition commands_negative : gmap string command :=
  <["negative"%string := Command "KEY_N" (PyFin (1 # 10))]> commands.
Definition frame_negative_first : list pyfloat :=
  [PyFin (5 # 10); PyFin (3 # 10); PyFin (2 # 10)].

(** A reader of plain decimal literals ([12], [0.75], [-1.5]) standing in
    for Python's [float] on the command tables below. *)
Definition digit_of (c : ascii) : option Z :=
  let n := nat_of_ascii c in
  if (48 <=? n)%nat && (n <=? 57)%nat then Some (Z.of_nat n - 48) else None.

Fixpoint decimal_digits (s : string) (num : Z) (den : positive) (dot digit : bool)
  : option Q :=
  match s with
  | EmptyString => if digit then Some (num # den) else None
  | String c t =>
      if Ascii.eqb c "."%char then
        (if dot then None else decimal_digits t num den true digit)
      else
        match digit_of c with
        | Some d => decimal_digits t (10 * num + d) (if dot then 10 * den else den)%positive dot true
        | None => None
        end
  end.

Definition float_of_decimal (s : string) : res pyfloat :=
  match s with
  | String "-"%char t =>
      match decimal_digits t 0 1 false false with
      | Some q => Ok (PyFin (- q))
      | None => Raise ValueError
      end
  | _ =>
      match decimal_digits s 0 1 false false with
      | Some q => Ok (PyFin q)
      | None => Raise ValueError
      end
  end.

(** Three chunks of three 16-bit samples each, as the capture callback
    queued them, in a recorder at 16 kHz and in one at 48 kHz that
    decimates by 3. *)
Definition chunk_a : bytes := [Byte.x01; Byte.x00; Byte.xff; Byte.xff; Byte.x02; Byte.x00].
Definition chunk_b : bytes := [Byte.x03; Byte.x00; Byte.x04; Byte.x00; Byte.x00; Byte.x80].
Definition chunk_c : bytes := [Byte.x05; Byte.x00; Byte.x06; Byte.x00; Byte.x07; Byte.x00].

Definition queued : list item :=
  [(chunk_a, 10 # 1); (chunk_b, 11 # 1); (chunk_c, 12 # 1)]%Q.

Definition env0 : Env := MkEnv (13 # 1) true [] [].

Definition recorder16 : AudioRecorder :=
  MkRecorder 1 16000 16000 (MkQueue max_queue_chunks queued).
Definition recording16 : St := (recorder16, env0).

(** A recorder whose queue holds one chunk, the next one arriving after
    half a second. *)
Definition starving : St :=
  (MkRecorder 1 16000 16000 (MkQueue max_queue_chunks [(chunk_a, 10 # 1)%Q]),
   MkEnv (13 # 1) true [((1 # 2)%Q, chunk_b)] []).

(** A queue of capacity 2. *)
Definition small_queue : St := (MkRecorder 1 16000 16000 (MkQueue 2 []), env0).

(** Modelled from the spec: [mel_features.py] is not among the sources.
    This stand-in frames the samples as the specification says (window
    0.025 s, hop 0.010 s, 32 mel bins) and gives every bin the log floor
    plus the magnitude of one sample of the window, so that silence gives
    the floor.  It only serves to run the extractor on the sample data. *)
Definition frame_bins (window : list Q) : list pyfloat :=
  map (fun x => PyFin (Qred (log_1e_3 + Qabs x))) (take 32 window).

Fixpoint frames (count window hop : nat) (samples : list Q) : list (list pyfloat) :=
  match count with
  | O => []
  | S count' => frame_bins (take window samples) :: frames count' window hop (drop hop samples)
  end.

Definition log_mel_stand_in (samples : list Q) (rate : Z) : list (list pyfloat) :=
  let window := Z.to_nat (rate * 25 / 1000) in
  let hop := Z.to_nat (rate * 10 / 1000) in
  if (length samples <? window)%nat then []
  else frames (S ((length samples - window) / hop)) window hop samples.









(** Lines of a command table. *)
Definition command_lines : list string :=
  ["left,KEY_LEFT,
"; "up,KEY_UP,1.5
"; "down,KEY_DOWN,0.75
"]%string.

End sample.

(* ===================================================================== *)
(** ** Theorems *)
(* ===================================================================== *)

Import audio_recorder model.

(** *** Python runtime *)

Lemma bind_ok {A B} (m : res A) (k : A -> res B) (b : B) :
  Py.bind m k = Ok b -> exists a, m = Ok a /\ k a = Ok b.
Proof. destruct m as [a|e]; simpl; [eauto | discriminate]. Qed.

Lemma getitem_ok {A} (l : list A) (i : Z) (x : A) :
  getitem l i = Ok x ->
  exists j : nat, l !! j = Some x /\
    Z.of_nat j = (if i <? 0 then i + Z.of_nat (length l) else i).
Proof.
  unfold getitem. intros Hg.
  destruct ((0 <=? _) && (_ <? _)) eqn:Hb; [|discriminate].
  apply andb_prop in Hb as [Hlo _]. apply Z.leb_le in Hlo.
  destruct (l !! Z.to_nat _) eqn:Hl; [|discriminate].
  injection Hg as ->. eexists; split; [exact Hl|]. apply Z2Nat.id, Hlo.
Qed.

Lemma getitem_tail {A} (x0 : A) (rest : list A) (i : Z) (x : A) :
  getitem (x0 :: rest) i = Ok x -> 0 < i -> x ∈ rest.
Proof.
  intros Hg Hi. apply getitem_ok in Hg as (j & Hj & Hji).
  destruct (i <? 0) eqn:E; [apply Z.ltb_lt in E; lia|].
  destruct j as [|j]; [lia|]. simpl in Hj.
  eapply list_elem_of_lookup_2, Hj.
Qed.

Lemma getitem_last {A} (x0 : A) (rest : list A) (x : A) :
  getitem (x0 :: rest) (-1) = Ok x -> rest <> [] -> x ∈ rest.
Proof.
  intros Hg Hne. apply getitem_ok in Hg as (j & Hj & Hji).
  simpl in Hji. destruct j as [|j].
  - destruct rest; [done | simpl in Hji; lia].
  - simpl in Hj. eapply list_elem_of_lookup_2, Hj.
Qed.

Lemma float_le_not_lt (x y : pyfloat) : float_le y x = true -> float_lt x y = false.
Proof.
  destruct x as [a|[]|], y as [b|[]|]; simpl; try congruence.
  intros ->. reflexivity.
Qed.

(** *** Classification loop *)

Section ClassifyFacts.

Variable argsort : list pyfloat -> list Z.
Variable labels : list string.
Variable commands : gmap string command.
Variable negative_threshold : pyfloat.

Abbreviation scan_rank := (scan_rank labels commands).
Abbreviation detect := (detect argsort labels commands negative_threshold).
Abbreviation dispatch := (dispatch labels commands).
Abbreviation classify_frame := (classify_frame argsort labels commands negative_threshold).
Abbreviation classify_loop := (classify_loop argsort labels commands negative_threshold).

(** A rank either leaves the candidate alone or installs its own index,
    which is then nonzero and taken from the ranking. *)
Lemma scan_rank_inv result top3 p d d' :
  scan_rank result top3 p d = Ok d' ->
  d' = d \/ (d' <> 0 /\ d' ∈ top3).
Proof.
  unfold model.scan_rank. intros Hs.
  apply bind_ok in Hs as (i & Hi & Hs).
  apply bind_ok in Hs as (label & Hl & Hs).
  destruct (commands !! label) as [c|]; [|injection Hs as <-; by left].
  destruct (i =? 0) eqn:Ei; [injection Hs as <-; by left|].
  apply bind_ok in Hs as (s & _ & Hs).
  destruct (float_lt (conf c) s); [|injection Hs as <-; by left].
  destruct (d <? 0); injection Hs as <-; [|by left].
  right. split; [by apply Z.eqb_neq|].
  apply getitem_ok in Hi as (j & Hj & _). eapply list_elem_of_lookup_2, Hj.
Qed.

Lemma scan_ranks_inv result top3 ps d d' :
  for_each (scan_rank result top3) ps d = Ok d' ->
  d' = d \/ (d' <> 0 /\ d' ∈ top3).
Proof.
  revert d. induction ps as [|p ps IH]; simpl; intros d Hs.
  - injection Hs as <-. by left.
  - apply bind_ok in Hs as (d1 & H1 & Hs).
    apply scan_rank_inv in H1. apply IH in Hs.
    destruct Hs as [->|Hs]; [exact H1 | by right].
Qed.

(** The candidate of a frame is [-1] or a nonzero entry of the ranking. *)
Lemma detect_inv result d :
  detect result = Ok d ->
  d = -1 \/ (d <> 0 /\ d ∈ argsort (map float_neg result)).
Proof.
  unfold model.detect. intros Hd.
  apply bind_ok in Hd as (r0 & _ & Hd).
  destruct (float_lt r0 negative_threshold); [|injection Hd as <-; by left].
  apply scan_ranks_inv in Hd as [->|[Hnz Hin]]; [by left|].
  right. split; [exact Hnz|].
  unfold slice_to in Hin. by apply subseteq_take in Hin.
Qed.

(** A frame whose negative score reaches the threshold has no candidate. *)
Lemma detect_negative result r0 :
  getitem result 0 = Ok r0 ->
  float_le negative_threshold r0 = true ->
  detect result = Ok (-1).
Proof.
  intros H0 Hle. unfold model.detect. rewrite H0. simpl.
  by rewrite (float_le_not_lt _ _ Hle).
Qed.

(** What [dispatch] can do: an event is the label found at the candidate's
    position, and is only sent when the candidate differs from the last
    detection. *)
Lemma dispatch_inv d last ev last' :
  dispatch d last = Ok (ev, last') ->
  match ev with
  | Some (label, k) =>
      getitem labels d = Ok label /\ (exists c, commands !! label = Some c /\ k = key c) /\
      d <> (if (d <? 0) && (0 <? last) then 0 else last) /\ last' = d
  | None => last' = (if (d <? 0) && (0 <? last) then 0 else last)
  end.
Proof.
  unfold model.dispatch. intros Hd.
  apply bind_ok in Hd as (label & Hl & Hd).
  destruct (commands !! label) as [c|] eqn:Hc.
  - destruct (d =? _) eqn:E; simpl in Hd; injection Hd as <- <-; [done|].
    apply Z.eqb_neq in E. eauto 6.
  - by injection Hd as <- <-.
Qed.

End ClassifyFacts.

(** The reserved label is never the label of a dispatched event: the loop
    keeps [last_detection = -1] as long as the table has no other label. *)
Lemma classify_loop_not_reserved argsort l0 rest commands thr :
  (forall v, Forall (fun i => 0 <= i) (argsort v)) ->
  l0 ∉ rest ->
  forall results last,
    (rest = [] -> last = -1) ->
    forall ev, ev ∈ fst (classify_loop argsort (l0 :: rest) commands thr results last) ->
    fst ev <> l0.
Proof.
  intros Hsort Hl0. induction results as [|result results IH]; intros last Hlast ev; simpl.
  - intros Hin. by apply elem_of_nil in Hin.
  - destruct (classify_frame _ _ _ _ result last) as [[e last']|err] eqn:Hf; simpl;
      [|intros Hin; by apply elem_of_nil in Hin].
    unfold classify_frame in Hf. apply bind_ok in Hf as (d & Hd & Hdisp).
    assert (Hdpos : d = -1 \/ 0 < d).
    { apply detect_inv in Hd as [->|[Hnz Hin]]; [by left|right].
      pose proof (Hsort (map float_neg result)) as Hall.
      rewrite Forall_forall in Hall. specialize (Hall d Hin). lia. }
    apply dispatch_inv in Hdisp.
    destruct (classify_loop _ _ _ _ results last') as [evs final] eqn:Hloop.
    assert (Hnext : rest = [] -> last' = -1).
    { intros Hnil. specialize (Hlast Hnil). subst last.
      destruct e as [[label k]|].
      - destruct Hdisp as (Hg & _ & _ & ->).
        destruct Hdpos as [->|Hpos]; [done|].
        apply (getitem_tail _ _ _ _ Hg) in Hpos. subst rest. by apply elem_of_nil in Hpos.
      - subst last'. by rewrite andb_false_r. }
    specialize (IH last' Hnext ev). rewrite Hloop in IH. simpl in IH.
    destruct e as [[label k]|]; simpl; [|exact IH].
    intros [->|Hin]%elem_of_cons; [|by apply IH]. simpl.
    destruct Hdisp as (Hg & _ & Hne & _).
    destruct Hdpos as [->|Hpos].
    + destruct rest as [|l1 rest'] eqn:Hrest.
      * specialize (Hlast eq_refl). subst last. simpl in Hne. done.
      * intros ->. apply Hl0. rewrite <- Hrest in *.
        eapply getitem_last; [exact Hg | by rewrite Hrest].
    + intros ->. apply Hl0. eapply getitem_tail; eauto.
Qed.

(** [np_argsort] returns positions of the vector. *)
Lemma insert_sorted_Forall (P : Z * pyfloat -> Prop) x l :
  P x -> Forall P l -> Forall P (insert_sorted x l).
Proof.
  intros Hx. induction 1 as [|y t Hy Ht IH]; simpl.
  - by constructor.
  - destruct (sorts_before _ _); repeat constructor; auto.
Qed.

Lemma np_argsort_indices (v : list pyfloat) : Forall (fun i => 0 <= i) (np_argsort v).
Proof.
  unfold np_argsort. apply Forall_fmap.
  assert (Hgen : forall (xs acc : list (Z * pyfloat)),
             Forall (fun p => 0 <= fst p) xs -> Forall (fun p => 0 <= fst p) acc ->
             Forall (fun p => 0 <= fst p)
                    (fold_left (fun acc x => insert_sorted x acc) xs acc)).
  { induction xs as [|x xs IH]; simpl; intros acc Hxs Hacc; [exact Hacc|].
    inversion Hxs; subst. apply IH; [assumption|]. by apply insert_sorted_Forall. }
  apply Hgen; [|constructor].
  generalize 0%nat. induction v as [|a v IH]; intros n; simpl; constructor; [simpl; lia|apply IH].
Qed.

(** The loop on score vectors is the debounce on their candidates. *)
Lemma classify_loop_dispatch_loop argsort labels commands thr results candidates last :
  Forall2 (fun r d => detect argsort labels commands thr r = Ok d) results candidates ->
  classify_loop argsort labels commands thr results last
  = dispatch_loop labels commands candidates last.
Proof.
  intros Hall. revert last. induction Hall as [|r d rs ds Hd _ IH]; intros last; simpl.
  - reflexivity.
  - unfold classify_frame. rewrite Hd. simpl.
    destruct (dispatch labels commands d last) as [[ev last']|e]; [|reflexivity].
    by rewrite IH.
Qed.

Section Debounce.

Variable labels : list string.
Variable commands : gmap string command.

Lemma dispatch_new d last l c :
  0 < d -> getitem labels d = Ok l -> commands !! l = Some c -> d <> last ->
  dispatch labels commands d last = Ok (Some (l, key c), d).
Proof.
  intros Hd Hl Hc Hne. unfold dispatch.
  replace (d <? 0) with false by (symmetry; apply Z.ltb_ge; lia). simpl.
  rewrite Hl. simpl. rewrite Hc.
  replace (d =? last) with false by (symmetry; by apply Z.eqb_neq). reflexivity.
Qed.

Lemma dispatch_same d l c :
  0 < d -> getitem labels d = Ok l -> commands !! l = Some c ->
  dispatch labels commands d d = Ok (None, d).
Proof.
  intros Hd Hl Hc. unfold dispatch.
  replace (d <? 0) with false by (symmetry; apply Z.ltb_ge; lia). simpl.
  rewrite Hl. simpl. rewrite Hc. by rewrite Z.eqb_refl.
Qed.

Lemma dispatch_none last l :
  0 < last -> getitem labels (-1) = Ok l -> commands !! l = None ->
  dispatch labels commands (-1) last = Ok (None, 0).
Proof.
  intros Hlast Hl Hc. unfold dispatch.
  replace (0 <? last) with true by (symmetry; by apply Z.ltb_lt). simpl.
  rewrite Hl. simpl. by rewrite Hc.
Qed.

(** When the last label of the table is not a command, the candidates
    [A, A, A, B, B, -, A] dispatch A, B, A. *)
Lemma dispatch_loop_debounce A B la lb ca cb ll :
  0 < A -> 0 < B -> A <> B ->
  getitem labels A = Ok la -> commands !! la = Some ca ->
  getitem labels B = Ok lb -> commands !! lb = Some cb ->
  getitem labels (-1) = Ok ll -> commands !! ll = None ->
  dispatch_loop labels commands [A; A; A; B; B; -1; A] initial_detection
  = ([(la, key ca); (lb, key cb); (la, key ca)], Ok A).
Proof.
  intros HA HB HAB HlA HcA HlB HcB Hll Hcl. unfold initial_detection. simpl.
  rewrite (dispatch_new A (-1) la ca) by (auto; lia).
  rewrite !(dispatch_same A la ca) by auto.
  rewrite (dispatch_new B A lb cb) by auto.
  rewrite (dispatch_same B lb cb) by auto.
  rewrite (dispatch_none B ll) by auto.
  rewrite (dispatch_new A 0 la ca) by (auto; lia).
  reflexivity.
Qed.

End Debounce.

(** C1: for the candidates [A, A, A, B, B, -, A] the dispatched keys should
    be [A, B, A].  On a label table whose last label is a command the
    no-detection frame dispatches that label: the sentinel [-1] indexes the
    table from its end.  Here the candidates are [1, 1, 1, 2, 2, -1, 1] and
    the keys dispatched are left, right, right, left. *)
Theorem C1_no_detection_frame_dispatches_last_label :
  let frames := [sample.frame_left; sample.frame_left; sample.frame_left;
                 sample.frame_right; sample.frame_right; sample.frame_none;
                 sample.frame_left] in
  map (detect np_argsort sample.labels sample.commands sample.threshold) frames
  = [Ok 1; Ok 1; Ok 1; Ok 2; Ok 2; Ok (-1); Ok 1] /\
  map snd (fst (classify_loop np_argsort sample.labels sample.commands sample.threshold
                              frames initial_detection))
  = ["KEY_LEFT"; "KEY_RIGHT"; "KEY_RIGHT"; "KEY_LEFT"]%string.
Proof. split; vm_compute; reflexivity. Qed.

(** C2: a frame whose negative score reaches the threshold has no
    candidate, and should dispatch nothing.  After a detection of the last
    label of the table, the frame [0.9, 0.05, 0.03, 0.02] with threshold 0.6
    has no candidate and yet dispatches that label's key again. *)
Theorem C2_negative_frame_dispatches_last_label :
  detect np_argsort sample.labels4 sample.commands4 sample.threshold sample.frame_negative
  = Ok (-1) /\
  classify_loop np_argsort sample.labels4 sample.commands4 sample.threshold
                [sample.frame_stop; sample.frame_negative] initial_detection
  = ([("stop", "KEY_SPACE"); ("stop", "KEY_SPACE")]%string, Ok (-1)).
Proof. split; vm_compute; reflexivity. Qed.

(** C10: the label at index 0 is never the candidate of a frame, and no
    event is dispatched for it, also when it is a command with a passing
    score: a candidate is [-1] or a positive index, and in a table that
    lists the reserved label once, every event dispatched by the loop
    carries another label. *)
Theorem C10_reserved_label_never_dispatched argsort labels commands thr :
  (forall v, Forall (fun i => 0 <= i) (argsort v)) ->
  (forall result d, detect argsort labels commands thr result = Ok d -> d = -1 \/ 0 < d) /\
  (forall l0 rest results ev,
      labels = l0 :: rest -> l0 ∉ rest ->
      ev ∈ fst (classify_loop argsort labels commands thr results initial_detection) ->
      fst ev <> l0).
Proof.
  intros Hsort. split.
  - intros result d Hd. apply detect_inv in Hd as [->|[Hnz Hin]]; [by left|right].
    pose proof (Hsort (map float_neg result)) as Hall.
    rewrite Forall_forall in Hall. specialize (Hall d Hin). lia.
  - intros l0 rest results ev -> Hl0 Hin.
    eapply classify_loop_not_reserved; eauto.
Qed.

Lemma C10_witness :
  detect np_argsort sample.labels sample.commands_negative sample.threshold
         sample.frame_negative_first = Ok (-1) /\
  (-1 = -1 \/ 0 < -1) /\
  fst (("left", "KEY_LEFT")%string : event) <> "negative"%string.
Proof.
  pose proof (C10_reserved_label_never_dispatched np_argsort sample.labels
                sample.commands_negative sample.threshold np_argsort_indices) as [Hc Hev].
  split; [vm_compute; reflexivity|]. split.
  - apply (Hc sample.frame_negative_first). vm_compute. reflexivity.
  - apply (Hev "negative"%string ["left"; "right"]%string
               [sample.frame_negative_first; sample.frame_left]).
    + reflexivity.
    + intros Hin. repeat (apply elem_of_cons in Hin as [Hin|Hin]; [discriminate|]).
      by apply elem_of_nil in Hin.
    + vm_compute. apply list_elem_of_here.
Defined.

(** *** Command table *)

Lemma for_each_app {A S} (f : A -> S -> res S) xs ys acc r :
  for_each f (xs ++ ys) acc = Ok r ->
  exists a, for_each f xs acc = Ok a /\ for_each f ys a = Ok r.
Proof.
  revert acc. induction xs as [|x xs IH]; simpl; intros acc Hr.
  - eauto.
  - apply bind_ok in Hr as (a & Ha & Hr). rewrite Ha. simpl. by apply IH.
Qed.

Section CommandFacts.

Variable float_of_string : string -> res pyfloat.

Abbreviation add_command := (add_command float_of_string).
Abbreviation read_commands := (read_commands float_of_string).

(** A line with an empty or out-of-range confidence records the default. *)
Lemma add_command_default label k confidence commands :
  confidence = EmptyString \/
  (exists v, float_of_string confidence = Ok v /\ in_unit_interval v = false) ->
  add_command [label; k; confidence] commands
  = Ok (<[label := Command k default_conf]> commands).
Proof.
  intros [->|(v & Hv & Hr)]; unfold model.add_command; [reflexivity|].
  destruct (String.eqb confidence EmptyString); [reflexivity|].
  rewrite Hv. cbn [Py.bind]. by rewrite Hr.
Qed.

(** A line with a confidence in [0, 1] records it. *)
Lemma add_command_given label k confidence v commands :
  confidence <> EmptyString ->
  float_of_string confidence = Ok v -> in_unit_interval v = true ->
  add_command [label; k; confidence] commands
  = Ok (<[label := Command k v]> commands).
Proof.
  intros Hne Hv Hr. unfold model.add_command.
  destruct (String.eqb_spec confidence EmptyString) as [|_]; [done|].
  rewrite Hv. cbn [Py.bind]. rewrite Hr. cbn [Py.bind].
  f_equal. apply map_eq. intros l.
  destruct (decide (label = l)) as [->|Hl].
  - by rewrite lookup_alter_eq, !lookup_insert_eq.
  - by rewrite lookup_alter_ne, !lookup_insert_ne.
Qed.

(** A line leaves the entries of the other labels alone. *)
Lemma add_command_other fields commands commands' label :
  add_command fields commands = Ok commands' ->
  hd_error fields <> Some label ->
  commands' !! label = commands !! label.
Proof.
  destruct fields as [|c [|k [|confidence [|]]]]; simpl; try discriminate.
  intros Hadd Hne. assert (c <> label) by congruence.
  destruct (String.eqb confidence EmptyString).
  - injection Hadd as <-. by rewrite lookup_insert_ne.
  - apply bind_ok in Hadd as (v & _ & Hadd).
    destruct (in_unit_interval v).
    + apply bind_ok in Hadd as (v' & _ & Hadd). injection Hadd as <-.
      by rewrite lookup_alter_ne, lookup_insert_ne.
    + injection Hadd as <-. by rewrite lookup_insert_ne.
Qed.

Lemma for_each_add_command_other lines commands commands' label :
  for_each add_command lines commands = Ok commands' ->
  Forall (fun fields => hd_error fields <> Some label) lines ->
  commands' !! label = commands !! label.
Proof.
  revert commands. induction lines as [|f lines IH]; simpl; intros commands Hr Hall.
  - by injection Hr as <-.
  - apply bind_ok in Hr as (c1 & H1 & Hr). inversion Hall; subst.
    rewrite (IH _ Hr) by assumption. eapply add_command_other; eauto.
Qed.

End CommandFacts.

(** C9: a line [label,key,confidence] whose confidence is empty, or parses
    to a float outside [0, 1], gives its label the threshold 0.4 (when no
    later line names the label again); the line ["left,KEY_LEFT,"] gives
    "left" the threshold 0.4. *)
Theorem C9_confidence_defaults float_of_string :
  (forall before line after label k confidence commands,
      fields_of line = [label; k; confidence] ->
      confidence = EmptyString \/
      (exists v, float_of_string confidence = Ok v /\ in_unit_interval v = false) ->
      Forall (fun l => hd_error (fields_of l) <> Some label) after ->
      read_commands float_of_string (before ++ line :: after) = Ok commands ->
      commands !! label = Some (Command k (PyFin (4 # 10)))) /\
  read_commands float_of_string ["left,KEY_LEFT,"%string]
  = Ok {[ "left"%string := Command "KEY_LEFT" (PyFin (4 # 10)) ]}.
Proof.
  split; [|reflexivity].
  intros before line after label k confidence commands Hf Hc Hafter Hr.
  unfold read_commands in Hr. rewrite map_app in Hr. simpl in Hr.
  apply for_each_app in Hr as (c0 & _ & Hr). simpl in Hr.
  apply bind_ok in Hr as (c1 & H1 & Hr).
  rewrite Hf in H1.
  rewrite (add_command_default _ _ _ _ _ Hc) in H1. injection H1 as <-.
  erewrite for_each_add_command_other; [|exact Hr|].
  - by rewrite lookup_insert_eq.
  - apply Forall_fmap. exact Hafter.
Qed.

Lemma C9_witness :
  read_commands sample.float_of_decimal sample.command_lines
  = Ok (<["down"%string := Command "KEY_DOWN" (PyFin (75 # 100))]>
        (<["up"%string := Command "KEY_UP" (PyFin (4 # 10))]>
         {[ "left"%string := Command "KEY_LEFT" (PyFin (4 # 10)) ]})) /\
  (<["down"%string := Command "KEY_DOWN" (PyFin (75 # 100))]>
   (<["up"%string := Command "KEY_UP" (PyFin (4 # 10))]>
    ({[ "left"%string := Command "KEY_LEFT" (PyFin (4 # 10)) ]} : gmap string command)))
    !! "up"%string = Some (Command "KEY_UP" (PyFin (4 # 10))).
Proof.
  assert (Hrun : read_commands sample.float_of_decimal sample.command_lines
    = Ok (<["down"%string := Command "KEY_DOWN" (PyFin (75 # 100))]>
          (<["up"%string := Command "KEY_UP" (PyFin (4 # 10))]>
           {[ "left"%string := Command "KEY_LEFT" (PyFin (4 # 10)) ]}))).
  { vm_compute. reflexivity. }
  split; [exact Hrun|].
  apply (proj1 (C9_confidence_defaults sample.float_of_decimal)
           ["left,KEY_LEFT,
"%string] "up,KEY_UP,1.5
"%string ["down,KEY_DOWN,0.75
"%string] "up"%string "KEY_UP"%string "1.5"%string).
  - vm_compute. reflexivity.
  - right. exists (PyFin (15 # 10)). split; vm_compute; reflexivity.
  - repeat constructor. vm_compute. discriminate.
  - exact Hrun.
Defined.

(** *** Strided slices *)



(** *** Audio queue *)



(** The three outcomes of a timed [get]. *)
Lemma queue_get_spec (timeout : Q) (r r' : AudioRecorder) (e e' : Env) (res : res item) :
  queue_get timeout (r, e) = (res, (r', e')) ->
  (res = Raise ValueError /\ r' = r /\ e' = e) \/
  (exists x, res = Ok x /\
     get_log e' = get_log e ++ [GetEvent timeout (Some x)] /\
     stream_active e' = stream_active e /\
     r' = set_queue r (MkQueue (maxsize (_raw_audio_queue r)) (tail (items (_raw_audio_queue r)))) /\
     (head (items (_raw_audio_queue r)) = Some x \/ items (_raw_audio_queue r) = [])) \/
  (res = Raise QueueEmpty /\
     get_log e' = get_log e ++ [GetEvent timeout None] /\
     stream_active e' = stream_active e /\
     r' = r /\ items (_raw_audio_queue r) = []).
Proof.
  unfold queue_get. destruct (negb _).
  { intros [= <- <- <-]. by left. }
  destruct r as [k raw rate [cap its]]; simpl.
  destruct its as [|x rest]; simpl.
  - destruct (producer e) as [|[delay data] later].
    + intros [= <- <- <-]. right; right. simpl. done.
    + destruct (Qle_bool delay timeout); intros [= <- <- <-].
      * right; left. eexists. simpl. split_and!; eauto.
      * right; right. simpl. done.
  - intros [= <- <- <-]. right; left. exists x. simpl. split_and!; eauto.
Qed.

Lemma drop_S_tail {A} (n : nat) (l : list A) : drop (S n) l = drop n (tail l).
Proof. destruct l; simpl; [by rewrite drop_nil | reflexivity]. Qed.

Lemma fromstring_int16_error (raw : bytes) :
  (forall err, fromstring_int16 raw = Raise err -> err = ValueError) /\
  (forall b err, fromstring_int16 (b :: raw) = Raise err -> err = ValueError).
Proof.
  induction raw as [|a raw [IH1 IH2]]; split; simpl; try congruence.
  - apply IH2.
  - intros b err. destruct (fromstring_int16 raw) eqn:E; simpl; [discriminate|].
    intros [= <-]. by apply IH1.
Qed.

Ltac split5 := refine (conj _ (conj _ (conj _ (conj _ _)))).

(** What [n] successive calls of [_get_chunk] do: [its] are the chunks
    taken, oldest first; each call is logged with the timeout; a call that
    times out ends the loop. *)
Lemma get_chunks_spec (timeout : Q) (n : nat) :
  forall (r r' : AudioRecorder) (e e' : Env) (res : res (list (list Z * Q))),
  get_chunks n timeout (r, e) = (res, (r', e')) ->
  exists its : list item,
    get_log e' = get_log e ++ map (fun x => GetEvent timeout (Some x)) its ++
                   match res with
                   | Raise QueueEmpty => [GetEvent timeout None]
                   | _ => []
                   end /\
    stream_active e' = stream_active e /\
    r' = set_queue r (MkQueue (maxsize (_raw_audio_queue r))
                              (drop (length its) (items (_raw_audio_queue r)))) /\
    (its `prefix_of` items (_raw_audio_queue r) \/
     items (_raw_audio_queue r) `prefix_of` its) /\
    match res with
    | Ok got =>
        length its = n /\
        Forall2 (fun it c => fromstring_int16 (fst it) = Ok (fst c) /\ snd it = snd c) its got
    | Raise QueueEmpty => (length its < n)%nat
    | Raise _ => (length its <= n)%nat
    end.
Proof.
  induction n as [|n IH]; intros r r' e e' res; simpl.
  - intros [= <- <- <-]. exists []. simpl. rewrite app_nil_r.
    destruct r as [k raw rate [cap its]]; simpl.
    split5; auto. left. apply prefix_nil.
  - unfold mbind at 1. unfold _get_chunk, mbind at 1.
    destruct (queue_get timeout (r, e)) as [rq [r1 e1]] eqn:Hq.
    apply queue_get_spec in Hq
      as [(-> & -> & ->)|[(x & -> & Hlog & Hact & -> & Hhead)|(-> & Hlog & Hact & -> & Hnil)]].
    + intros [= <- <- <-]. exists []. simpl. rewrite app_nil_r.
      destruct r as [k raw rate [cap its]]; simpl.
      split5; auto; [left; apply prefix_nil | lia].
    + destruct x as [raw_data timestamp]. unfold mbind at 1, lift.
      destruct (fromstring_int16 raw_data) as [array_data|err] eqn:Hdec.
      * unfold ret at 1, mbind at 1.
        destruct (get_chunks n timeout _) as [rs [r2 e2]] eqn:Hrest.
        apply IH in Hrest as (its & Hlog2 & Hact2 & Hr2 & Hpre & Hres).
        assert (Hpre' : (raw_data, timestamp) :: its `prefix_of` items (_raw_audio_queue r) \/
                        items (_raw_audio_queue r) `prefix_of` (raw_data, timestamp) :: its).
        { destruct r as [k raw rate [cap q]]; simpl in *.
          destruct Hhead as [Hh| ->]; [|right; apply prefix_nil].
          destruct q as [|y q]; [discriminate|]. injection Hh as ->. simpl in Hpre.
          destruct Hpre as [Hp|Hp]; [left|right]; by apply prefix_cons. }
        assert (Hr' : r2 = set_queue r (MkQueue (maxsize (_raw_audio_queue r))
                   (drop (S (length its)) (items (_raw_audio_queue r))))).
        { rewrite Hr2. destruct r as [k raw rate [cap q]]; simpl. by rewrite drop_S_tail. }
        destruct rs as [got|err]; [unfold ret|]; intros [= <- <- <-];
          exists ((raw_data, timestamp) :: its); simpl;
          (split5; [rewrite Hlog2, Hlog, <- app_assoc; reflexivity | congruence | exact Hr' | exact Hpre' | ]).
        -- destruct Hres as [Hlen Hall]. split; [by rewrite Hlen|].
           constructor; [simpl; auto | exact Hall].
        -- destruct err; lia.
      * intros [= <- <- <-]. exists [(raw_data, timestamp)].
        apply fromstring_int16_error in Hdec as ->. simpl.
        split5; [by rewrite Hlog | exact Hact | | | lia].
        -- destruct r as [k raw rate [cap q]]; simpl. by rewrite drop_S_tail, drop_0.
        -- destruct r as [k raw rate [cap q]]; simpl in *.
           destruct Hhead as [Hh| ->]; [|right; apply prefix_nil].
           destruct q as [|y q]; [discriminate|]. injection Hh as ->.
           left. apply prefix_cons, prefix_nil.
    + intros [= <- <- <-]. exists []. simpl.
      split5; [exact Hlog | exact Hact | | left; apply prefix_nil | lia].
      destruct r as [k raw rate [cap its]]; simpl. reflexivity.
Qed.

Lemma getitem_first {A} (l : list A) (x : A) : getitem l 0 = Ok x -> head l = Some x.
Proof.
  intros Hg. apply getitem_ok in Hg as (j & Hj & Hji). simpl in Hji.
  assert (j = 0%nat) as -> by lia. by rewrite head_lookup.
Qed.





(** With one chunk queued and the next half a second away, [get_audio]
    for two chunks takes the first, waits 0.256 s and raises the capture
    time-out. *)
Example get_audio_times_out :
  fst (get_audio 1500 sample.starving)
  = Raise (TimeoutError (CaptureTimedOut (inject_Z 4 * (inject_Z 1024 / inject_Z 16000))%Q)) /\
  map ev_item (get_log (snd (snd (get_audio 1500 sample.starving))))
  = [Some (sample.chunk_a, (10 # 1)%Q); None].
Proof. split; vm_compute; reflexivity. Qed.



(** *** Queue occupancy *)

(** The consumer's calls only take chunks from the front of the queue. *)
Lemma _get_chunk_queue (timeout : Q) (r r' : AudioRecorder) (e e' : Env) res :
  _get_chunk timeout (r, e) = (res, (r', e')) ->
  exists m : nat,
    r' = set_queue r (MkQueue (maxsize (_raw_audio_queue r))
                              (drop m (items (_raw_audio_queue r)))).
Proof.
  unfold _get_chunk, mbind at 1.
  destruct (queue_get timeout (r, e)) as [rq [r1 e1]] eqn:Hq.
  apply queue_get_spec in Hq
    as [(-> & -> & ->)|[(x & -> & _ & _ & -> & _)|(-> & _ & _ & -> & _)]].
  - intros [= <- <- <-]. exists 0%nat. by destruct r as [k raw rate [cap q]].
  - destruct x as [raw_data timestamp]. unfold mbind, lift, ret.
    destruct (fromstring_int16 raw_data); intros [= <- <- <-];
      exists 1%nat; by rewrite drop_S_tail, drop_0.
  - intros [= <- <- <-]. exists 0%nat. by destruct r as [k raw rate [cap q]].
Qed.

Lemma get_audio_queue (n : Z) (r r' : AudioRecorder) (e e' : Env) res :
  get_audio n (r, e) = (res, (r', e')) ->
  exists m : nat,
    r' = set_queue r (MkQueue (maxsize (_raw_audio_queue r))
                              (drop m (items (_raw_audio_queue r)))).
Proof.
  unfold get_audio. destruct (chunk_timeout r) as [timeout|err].
  - destruct (get_chunks _ timeout (r, e)) as [rc [r1 e1]] eqn:Hc.
    apply get_chunks_spec in Hc as (its & _ & _ & Hr & _).
    intros Hget. exists (length its). rewrite <- Hr.
    destruct rc as [got|[]]; by injection Hget.
  - intros [= <- <- <-]. exists 0%nat. by destruct r as [k raw rate [cap q]].
Qed.

(** Every call keeps the capacity and leaves at most that many chunks. *)
Lemma step_bounded (o : op) (s : St) :
  let q := _raw_audio_queue (fst s) in
  let q' := _raw_audio_queue (fst (step o s)) in
  0 < maxsize q -> qsize q <= maxsize q ->
  maxsize q' = maxsize q /\ qsize q' <= maxsize q.
Proof.
  destruct s as [r e]. unfold qsize. simpl. intros Hcap Hsize.
  assert (Hdrop : forall (m : nat) (r' : AudioRecorder),
             r' = set_queue r (MkQueue (maxsize (_raw_audio_queue r))
                                       (drop m (items (_raw_audio_queue r)))) ->
             maxsize (_raw_audio_queue r') = maxsize (_raw_audio_queue r) /\
             Z.of_nat (length (items (_raw_audio_queue r'))) <= maxsize (_raw_audio_queue r)).
  { intros m r' ->. simpl. split; [reflexivity|]. rewrite length_drop. lia. }
  destruct o as [d|t|n|]; cbn [step].
  - unfold _enqueue_raw_audio, put_nowait, qsize.
    destruct (maxsize _ <=? _) eqn:E; rewrite ?andb_true_r, ?andb_false_r.
    + replace (0 <? maxsize (_raw_audio_queue r)) with true
        by (symmetry; by apply Z.ltb_lt). simpl. lia.
    + apply Z.leb_gt in E. simpl. rewrite length_app. simpl. lia.
  - destruct (_get_chunk t (r, e)) as [res [r' e']] eqn:Hg.
    apply _get_chunk_queue in Hg as [m Hm]. by apply (Hdrop m).
  - destruct (get_audio n (r, e)) as [res [r' e']] eqn:Hg.
    apply get_audio_queue in Hg as [m Hm]. by apply (Hdrop m).
  - simpl. lia.
Qed.

(** C3: over every sequence of enqueues and dequeues the queue never holds
    more than its capacity (1200 chunks in a recorder); an enqueue on a
    full queue raises at once and leaves the queue as it was, and an
    enqueue on a queue with room appends the chunk. *)
Theorem C3_queue_never_exceeds_capacity :
  (forall raw k r,
      init raw k = Ok r ->
      maxsize (_raw_audio_queue r) = 1200 /\ items (_raw_audio_queue r) = []) /\
  (forall (s : St) (ops : list op),
      0 < maxsize (_raw_audio_queue (fst s)) ->
      qsize (_raw_audio_queue (fst s)) <= maxsize (_raw_audio_queue (fst s)) ->
      maxsize (_raw_audio_queue (fst (run ops s))) = maxsize (_raw_audio_queue (fst s)) /\
      qsize (_raw_audio_queue (fst (run ops s))) <= maxsize (_raw_audio_queue (fst s))) /\
  (forall (r : AudioRecorder) (e : Env) (in_data : bytes),
      0 < maxsize (_raw_audio_queue r) ->
      qsize (_raw_audio_queue r) = maxsize (_raw_audio_queue r) ->
      _enqueue_raw_audio in_data (r, e) = (Raise (TimeoutError RawAudioBufferFull), (r, e))) /\
  (forall (r : AudioRecorder) (e : Env) (in_data : bytes),
      qsize (_raw_audio_queue r) < maxsize (_raw_audio_queue r) ->
      _enqueue_raw_audio in_data (r, e)
      = (Ok tt, (set_queue r (MkQueue (maxsize (_raw_audio_queue r))
                                      (items (_raw_audio_queue r) ++ [(in_data, clock e)])), e))).
Proof.
  split_and!.
  - intros raw k r. unfold init. destruct (k =? 0); [discriminate|].
    intros [= <-]. simpl. done.
  - intros s ops. revert s. induction ops as [|o ops IH]; intros s Hcap Hsize; simpl.
    + done.
    + destruct (step_bounded o s Hcap Hsize) as [Hm Hq].
      destruct (IH (step o s)) as [Hm' Hq']; [lia | lia |].
      rewrite Hm', Hm. split; [reflexivity | lia].
  - intros r e d Hcap Hfull. unfold _enqueue_raw_audio, put_nowait.
    replace (0 <? maxsize (_raw_audio_queue r)) with true by (symmetry; by apply Z.ltb_lt).
    replace (maxsize (_raw_audio_queue r) <=? qsize (_raw_audio_queue r)) with true
      by (symmetry; apply Z.leb_le; lia).
    reflexivity.
  - intros r e d Hroom. unfold _enqueue_raw_audio, put_nowait.
    replace (maxsize (_raw_audio_queue r) <=? qsize (_raw_audio_queue r)) with false
      by (symmetry; apply Z.leb_gt; lia).
    by rewrite andb_false_r.
Qed.

Lemma C3_witness :
  (maxsize (_raw_audio_queue (MkRecorder 3 48000 16000 (MkQueue max_queue_chunks []))) = 1200) /\
  (qsize (_raw_audio_queue (fst (run [Enqueue sample.chunk_a; Enqueue sample.chunk_b;
                                       Enqueue sample.chunk_c; Dequeue (1 # 4)%Q;
                                       Enqueue sample.chunk_c; Enqueue sample.chunk_a]
                                      sample.small_queue))) <= 2) /\
  fst (_enqueue_raw_audio sample.chunk_c
         (run [Enqueue sample.chunk_a; Enqueue sample.chunk_b] sample.small_queue))
  = Raise (TimeoutError RawAudioBufferFull).
Proof.
  destruct C3_queue_never_exceeds_capacity as (Hinit & Hrun & Hfull & _).
  split_and!.
  - apply (Hinit 48000 3). reflexivity.
  - apply (Hrun sample.small_queue); vm_compute; [reflexivity | discriminate].
  - destruct (run _ sample.small_queue) as [r e] eqn:Hr.
    assert (Hcap : maxsize (_raw_audio_queue r) = 2 /\ qsize (_raw_audio_queue r) = 2).
    { apply (f_equal fst) in Hr. simpl in Hr. rewrite <- Hr. vm_compute. done. }
    destruct Hcap as [Hcap Hsz]. rewrite Hfull; [reflexivity | lia | lia].
Defined.

(** *** Feature extractor: the carried audio *)

Section ExtractorFacts.

Context {F : Type} `{NumpyFloat F}.
Variable log_mel_spectrogram : list Q -> Z -> list (list F).

Abbreviation World := (@World F).





(** [_get_next_spectra] is the gathering followed by the spectrogram of
    the first [required_num_samples] samples. *)
Lemma _get_next_spectra_ok (n : Z) (w w' : World) (spectra : list (list F)) :
  _get_next_spectra log_mel_spectrogram n w = (Ok spectra, w') ->
  exists (audio_samples : list Q) (required : Z),
    _gather_audio n w = (Ok (audio_samples, required), w') /\
    spectra = _compute_spectrogram log_mel_spectrogram (slice_to audio_samples required)
                (audio_sample_rate_hz (fst (recorder w'))) /\
    Z.of_nat (length spectra) = n.
Proof.
  unfold _get_next_spectra.
  destruct (_gather_audio n w) as [[[audio required]|err] w1]; [|discriminate].
  destruct (_ =? n) eqn:E; [|discriminate]. apply Z.eqb_eq in E.
  intros [= <- <-]. eauto.
Qed.


(** A call of [get_next_spectrogram] that returns went through every
    step. *)
Lemma get_next_spectrogram_ok (w w' : World) (l : loc) :
  get_next_spectrogram log_mel_spectrogram w = (Ok l, w') ->
  let x := extractor w in
  let hop := frame_hop_spectra x in
  exists (a a1 spectra a2 : list (list F)) (w2 : World),
    stream_active (snd (recorder w)) = true /\
    read_float (arrays w) (_spectrogram x) = Ok a /\
    setitem_to a (- hop) (slice_from a hop) = Ok a1 /\
    _get_next_spectra log_mel_spectrogram hop
      (set_arrays w (<[_spectrogram x := FloatArray a1]> (arrays w))) = (Ok spectra, w2) /\
    setitem_from a1 (- hop) spectra = Ok a2 /\
    let h2 := <[_spectrogram x := FloatArray a2]> (arrays w2) in
    let c := fresh (dom h2) in
    let h4 := <[c := FloatArray (normalise (_norm_factor x) a2)]> (<[c := FloatArray a2]> h2) in
    l = fresh (dom h4) /\
    w' = set_arrays w2
           (<[l := Uint8Array (map (map to_uint8) (normalise (_norm_factor x) a2))]> h4).
Proof.
  intros Hcall x hop. unfold get_next_spectrogram in Hcall. fold x hop in Hcall.
  destruct (stream_active _); [|discriminate]. simpl in Hcall.
  destruct (read_float (arrays w) (_spectrogram x)) as [a|] eqn:Hr; [|discriminate].
  destruct (setitem_to a (- hop) (slice_from a hop)) as [a1|] eqn:H1; [|discriminate].
  destruct (_get_next_spectra _ hop _) as [[spectra|] w2] eqn:Hs; [|discriminate].
  destruct (setitem_from a1 (- hop) spectra) as [a2|] eqn:H2; [|discriminate].
  unfold alloc in Hcall. injection Hcall as <- <-.
  exists a, a1, spectra, a2, w2. split_and!; auto.
Qed.


End ExtractorFacts.

(** With the default hop of 33 rows at 16 kHz the extractor asks for 5521
    samples and carries from sample 5281 on: one sample more than 33 hops
    of 160 samples. *)
Example default_required_samples :
  required_num_samples 33 16000 = Ok 5521 /\
  _spectrogram_underlap_samples 16000 = Ok 240.
Proof. split; vm_compute; reflexivity. Qed.



(** *** Feature extractor: shapes *)



Section ShapeFacts.

Context {F : Type} `{NumpyFloat F}.





End ShapeFacts.

(** *** Feature extractor: the normalisation, column by column *)



Section NormaliseFacts.

Context {F : Type} `{NumpyFloat F}.

Implicit Types (a : list (list F)) (v : list F).

Abbreviation rows_of_length c a := (Forall (fun r : list F => length r = c) a).



















End NormaliseFacts.

(** *** Feature extractor: the returned frame *)

Section FrameFacts.

Context {F : Type} `{NumpyFloat F}.
Variable log_mel_spectrogram : list Q -> Z -> list (list F).

Abbreviation World := (@World F).
Abbreviation next_frame := (get_next_spectrogram log_mel_spectrogram).





End FrameFacts.

Section FrameTheorems.

Context {F : Type} `{NumpyFloat F}.
Variable log_mel_spectrogram : list Q -> Z -> list (list F).

Abbreviation World := (@World F).
Abbreviation next_frame := (get_next_spectrogram log_mel_spectrogram).






End FrameTheorems.



(** With exact arithmetic an all-zero column normalises to 0/0, a NaN,
    which the cast turns into 0: the frame of a silent input is all 0,
    not the 127 that a divisor of 1 would give. *)
Example constant_column_is_nan :
  spec_normalise_column 3 (replicate 198 (PyFin 0)) = replicate 198 0 /\
  float_div (PyFin 0) (float_mul (PyFin 3) (PyFin 0)) = PyNaN.
Proof. split; vm_compute; reflexivity. Qed.


(* ===================================================================== *)
(** ** Further properties *)
(* ===================================================================== *)

(** *** audio_recorder.py *)

(** The decoding of a chunk, by pairs of bytes. *)
Lemma fromstring_int16_pairs (raw : bytes) :
  (forall b,
     is_ok (fromstring_int16 raw) = Nat.even (length raw) /\
     is_ok (fromstring_int16 (b :: raw)) = Nat.even (S (length raw))) /\
  (forall b samples,
     (fromstring_int16 raw = Ok samples ->
        (2 * length samples = length raw)%nat /\
        Forall (fun v => -32768 <= v <= 32767) samples) /\
     (fromstring_int16 (b :: raw) = Ok samples ->
        (2 * length samples = S (length raw))%nat /\
        Forall (fun v => -32768 <= v <= 32767) samples)).
Proof.
  assert (Hrange : forall lo hi, -32768 <= int16_of_bytes lo hi <= 32767).
  { intros lo hi. unfold int16_of_bytes.
    pose proof (Byte.to_N_bounded lo) as Hlo. pose proof (Byte.to_N_bounded hi) as Hhi.
    destruct (_ <? 32768) eqn:E; [apply Z.ltb_lt in E|apply Z.ltb_ge in E]; lia. }
  induction raw as [|a raw [IHok IHlen]]; split.
  - intros b. split; reflexivity.
  - intros b samples. split; simpl; [intros [= <-]; split; [reflexivity | constructor] | discriminate].
  - intros b. split; [apply (IHok a)|].
    cbn [fromstring_int16 length]. destruct (IHok a) as [Hraw _].
    destruct (fromstring_int16 raw); simpl in *; rewrite <- Hraw; reflexivity.
  - intros b samples. split; [apply (IHlen a samples)|].
    cbn [fromstring_int16 length].
    destruct (fromstring_int16 raw) as [r|] eqn:E; simpl; [|discriminate].
    intros [= <-]. destruct (IHlen a r) as [[Hl Hr] _]; [reflexivity|].
    split; [simpl; lia | constructor; [apply Hrange | exact Hr]].
Qed.

(** X1: [np.fromstring] on raw 16-bit audio succeeds exactly on an even
    number of bytes, and gives one sample per pair of bytes, each within
    the range of a signed 16-bit integer. *)
Theorem fromstring_int16_spec (raw : bytes) :
  is_ok (fromstring_int16 raw) = Nat.even (length raw) /\
  (forall samples,
     fromstring_int16 raw = Ok samples ->
     (2 * length samples = length raw)%nat /\
     Forall (fun v => -32768 <= v <= 32767) samples).
Proof.
  destruct (fromstring_int16_pairs raw) as [Hok Hlen]. split.
  - apply (Hok Byte.x00).
  - intros samples. apply (Hlen Byte.x00 samples).
Qed.

Lemma fromstring_int16_spec_witness :
  let samples := [3; 4; -32768] in
  fromstring_int16 sample.chunk_b = Ok samples /\
  (2 * length samples = length sample.chunk_b)%nat.
Proof.
  intros samples. split; [reflexivity|].
  apply (proj2 (fromstring_int16_spec sample.chunk_b) samples). reflexivity.
Defined.

Lemma enqueue_run (ds : list bytes) :
  forall (r : AudioRecorder) (e : Env),
    let q := _raw_audio_queue r in
    0 < maxsize q -> qsize q <= maxsize q ->
    run (map Enqueue ds) (r, e)
    = (set_queue r (MkQueue (maxsize q)
                            (take (Z.to_nat (maxsize q))
                                  (items q ++ map (fun d => (d, clock e)) ds))),
       e).
Proof.
  induction ds as [|d ds IH]; intros r e q Hcap Hsize; unfold qsize in Hsize; simpl.
  - rewrite app_nil_r, take_ge by lia. by destruct r as [k raw rate [cap its]].
  - unfold _enqueue_raw_audio, put_nowait, qsize. fold q.
    replace (0 <? maxsize q) with true by (symmetry; by apply Z.ltb_lt).
    destruct (Z.leb_spec (maxsize q) (Z.of_nat (length (items q)))) as [Hfull|Hroom]; simpl.
    + rewrite IH by (fold q; unfold qsize; lia). fold q.
      rewrite !take_app_le by lia. reflexivity.
    + rewrite IH by (unfold qsize; simpl; rewrite ?length_app; simpl; lia).
      simpl. rewrite <- app_assoc. reflexivity.
Qed.

(** X2: from an empty queue of capacity [C], after any run of calls of
    the capture callback the queue holds the first [C] chunks delivered,
    in order, each with the time of its call; the later ones were refused,
    and nothing else changed. *)
Theorem enqueue_keeps_first_chunks (r : AudioRecorder) (e : Env) (ds : list bytes) :
  let q := _raw_audio_queue r in
  0 < maxsize q -> items q = [] ->
  items (_raw_audio_queue (fst (run (map Enqueue ds) (r, e))))
  = take (Z.to_nat (maxsize q)) (map (fun d => (d, clock e)) ds) /\
  snd (run (map Enqueue ds) (r, e)) = e.
Proof.
  intros q Hcap Hempty.
  rewrite enqueue_run by (fold q; unfold qsize; rewrite ?Hempty; simpl; lia).
  fold q. rewrite Hempty. split; reflexivity.
Qed.

Lemma enqueue_keeps_first_chunks_witness :
  items (_raw_audio_queue (fst (run (map Enqueue [sample.chunk_a; sample.chunk_b; sample.chunk_c])
                                    sample.small_queue)))
  = [(sample.chunk_a, (13 # 1)%Q); (sample.chunk_b, (13 # 1)%Q)].
Proof.
  apply (enqueue_keeps_first_chunks (fst sample.small_queue) (snd sample.small_queue)
           [sample.chunk_a; sample.chunk_b; sample.chunk_c]); [simpl; lia | reflexivity].
Defined.

(** When the queue holds the chunks asked for, the loop of [_get_chunk]
    takes them without waiting. *)
Lemma get_chunks_ready (timeout : Q) (n : nat) :
  forall (r : AudioRecorder) (e : Env) (chunks : list (list Z)),
    let q := _raw_audio_queue r in
    Qle_bool 0 timeout = true ->
    (n <= length (items q))%nat ->
    Forall2 (fun it c => fromstring_int16 (fst it) = Ok c) (take n (items q)) chunks ->
    get_chunks n timeout (r, e)
    = (Ok (zip chunks (map snd (take n (items q)))),
       (set_queue r (MkQueue (maxsize q) (drop n (items q))),
        MkEnv (clock e) (stream_active e) (producer e)
              (get_log e ++ map (fun x => GetEvent timeout (Some x)) (take n (items q))))).
Proof.
  induction n as [|n IH]; intros r e chunks q Hto Hlen Hdec.
  - rewrite take_0 in *. inversion Hdec; subst. simpl. unfold ret. rewrite app_nil_r, drop_0.
    destruct r as [k raw rate [cap its]], e; reflexivity.
  - destruct r as [k raw rate [cap its]]. simpl in q, Hlen, Hdec. subst q.
    destruct its as [|[raw_data timestamp] its]; [simpl in Hlen; lia|].
    simpl in Hdec. inversion Hdec as [|it c its' cs Hd Hrest]; subst. simpl in Hd.
    cbn [get_chunks]. unfold mbind at 1. unfold _get_chunk, mbind at 1.
    unfold queue_get. rewrite Hto. cbn [negb _raw_audio_queue items maxsize].
    unfold mbind at 1, lift. rewrite Hd. unfold ret at 1, mbind at 1.
    rewrite (IH _ _ cs) by (simpl in *; auto; lia).
    unfold ret. simpl. rewrite <- app_assoc. reflexivity.
Qed.











Lemma getitem_error {A} (l : list A) (i : Z) (err : exn) :
  getitem l i = Raise err -> err = IndexError.
Proof. unfold getitem. repeat case_match; congruence. Qed.

(** A loop of [_get_chunk] that ends in [queue.Empty] has emptied the
    queue. *)
Lemma get_chunks_timed_out (timeout : Q) (n : nat) :
  forall (r r' : AudioRecorder) (e e' : Env),
    get_chunks n timeout (r, e) = (Raise QueueEmpty, (r', e')) ->
    items (_raw_audio_queue r') = [] /\
    (length (items (_raw_audio_queue r)) < n)%nat.
Proof.
  induction n as [|n IH]; intros r r' e e'; simpl; [discriminate|].
  unfold mbind at 1. unfold _get_chunk, mbind at 1.
  destruct (queue_get timeout (r, e)) as [rq [r1 e1]] eqn:Hq.
  apply queue_get_spec in Hq
    as [(-> & -> & ->)|[(x & -> & _ & _ & -> & Hhead)|(-> & _ & _ & -> & Hnil)]].
  - discriminate.
  - destruct x as [raw_data timestamp]. unfold mbind at 1, lift.
    destruct (fromstring_int16 raw_data) as [array_data|err] eqn:Hdec.
    + unfold ret at 1, mbind at 1.
      destruct (get_chunks n timeout _) as [[got|err] [r2 e2]] eqn:Hrest;
        [unfold ret; discriminate|].
      intros [= -> <- <-]. apply IH in Hrest as [Hempty Hlen]. split; [exact Hempty|].
      destruct r as [k raw rate [cap its]]; simpl in *. destruct its; simpl in *; lia.
    + apply fromstring_int16_error in Hdec as ->. discriminate.
  - intros [= <- <-]. split; [exact Hnil | rewrite Hnil; simpl; lia].
Qed.

(** The loop raises nothing but [ValueError] and [queue.Empty]. *)
Lemma get_chunks_error (timeout : Q) (n : nat) :
  forall (s s' : St) (err : exn),
    get_chunks n timeout s = (Raise err, s') -> err = ValueError \/ err = QueueEmpty.
Proof.
  induction n as [|n IH]; intros [r e] [r' e'] err; simpl; [discriminate|].
  unfold mbind at 1. unfold _get_chunk, mbind at 1.
  destruct (queue_get timeout (r, e)) as [rq [r1 e1]] eqn:Hq.
  apply queue_get_spec in Hq
    as [(-> & -> & ->)|[(x & -> & _ & _ & -> & Hhead)|(-> & _ & _ & -> & Hnil)]].
  - intros [= <- <- <-]. by left.
  - destruct x as [raw_data timestamp]. unfold mbind at 1, lift.
    destruct (fromstring_int16 raw_data) as [array_data|err'] eqn:Hdec.
    + unfold ret at 1, mbind at 1.
      destruct (get_chunks n timeout _) as [[got|err'] s2] eqn:Hrest;
        [unfold ret; discriminate|].
      intros [= <- ->]. eapply IH, Hrest.
    + apply fromstring_int16_error in Hdec as ->. intros [= <- <- <-]. by left.
  - intros [= <- <- <-]. by right.
Qed.

(** X5: when [get_audio] times out, the queue held fewer chunks than the
    call needed and is left empty: the chunks taken before the timeout are
    neither returned nor put back. *)
Theorem get_audio_timeout_drains (r r' : AudioRecorder) (e e' : Env) (n : Z)
    (msg : timeout_message) :
  get_audio n (r, e) = (Raise (TimeoutError msg), (r', e')) ->
  items (_raw_audio_queue r') = [] /\
  Z.of_nat (length (items (_raw_audio_queue r))) < num_audio_chunks r n /\
  exists timeout : Q, chunk_timeout r = Ok timeout /\ msg = CaptureTimedOut timeout.
Proof.
  unfold get_audio. destruct (chunk_timeout r) as [timeout|err] eqn:Ht.
  - destruct (get_chunks _ timeout (r, e)) as [[got|err] [r1 e1]] eqn:Hc.
    + cbv zeta. destruct (if _ =? 1 then _ else _) as [samples|err] eqn:Hs.
      * cbn [Py.bind]. destruct (getitem _ 0) as [a|err0] eqn:H0.
        -- cbn [Py.bind]. destruct (getitem _ (-1)) as [b|err1] eqn:H1; [discriminate|].
           apply getitem_error in H1 as ->. discriminate.
        -- apply getitem_error in H0 as ->. discriminate.
      * cbn [Py.bind]. destruct (_ =? 1); [discriminate|].
        unfold slice_step in Hs. repeat case_match; try discriminate.
        injection Hs as <-. discriminate.
    + destruct err; try discriminate.
      * intros [= <- <- <-]. apply get_chunks_timed_out in Hc as [Hempty Hlen].
        split; [exact Hempty|]. split; [lia | eauto].
      * apply get_chunks_error in Hc as [Hc|Hc]; discriminate.
  - intros [= -> <- <-]. unfold chunk_timeout, _chunk_duration_seconds in Ht.
    destruct (_ =? 0); discriminate.
Qed.

Lemma get_audio_timeout_drains_witness :
  exists msg s', get_audio 1500 sample.starving = (Raise (TimeoutError msg), s') /\
                 items (_raw_audio_queue (fst s')) = [].
Proof.
  destruct (get_audio 1500 sample.starving) as [res [r' e']] eqn:Hg.
  assert (Hres : res = Raise (TimeoutError (CaptureTimedOut (4096 # 16000)))).
  { apply (f_equal fst) in Hg. simpl in Hg. rewrite <- Hg. vm_compute. reflexivity. }
  subst res. exists (CaptureTimedOut (4096 # 16000)), (r', e'). split; [reflexivity|].
  apply (get_audio_timeout_drains (fst sample.starving) r' (snd sample.starving) e' 1500 _ Hg).
Defined.

(** X6: chunks the capture callback queued come back from [_get_chunk]
    in the order of their delivery, decoded, under the time of their
    delivery, and leave the queue empty. *)
Theorem enqueue_then_get_chunks (r : AudioRecorder) (e : Env) (ds : list bytes)
    (chunks : list (list Z)) (timeout : Q) :
  let q := _raw_audio_queue r in
  let s := run (map Enqueue ds) (r, e) in
  items q = [] ->
  Z.of_nat (length ds) <= maxsize q ->
  Qle_bool 0 timeout = true ->
  Forall2 (fun d c => fromstring_int16 d = Ok c) ds chunks ->
  fst (get_chunks (length ds) timeout s) = Ok (map (fun c => (c, clock e)) chunks) /\
  items (_raw_audio_queue (fst (snd (get_chunks (length ds) timeout s)))) = [].
Proof.
  intros q s Hempty Hcap Hto Hdec. subst s.
  destruct ds as [|d ds].
  { inversion Hdec; subst. simpl. fold q. rewrite Hempty. split; reflexivity. }
  rewrite enqueue_run by (fold q; unfold qsize; rewrite ?Hempty; simpl in *; lia).
  fold q. rewrite Hempty, app_nil_l.
  rewrite take_ge by (rewrite length_map; lia).
  set (stamped := map (fun d0 => (d0, clock e)) (d :: ds)).
  assert (Hlen : length stamped = length (d :: ds)) by (unfold stamped; by rewrite length_map).
  rewrite (get_chunks_ready timeout (length (d :: ds)) _ e chunks Hto).
  - cbn [fst snd _raw_audio_queue set_queue items maxsize].
    rewrite <- Hlen, firstn_all, drop_all. split; [|reflexivity]. f_equal.
    unfold stamped. rewrite map_map. cbn [snd].
    clear -Hdec. induction Hdec as [|x c l cs _ _ IH]; [reflexivity|].
    simpl in *. by rewrite IH.
  - simpl. rewrite length_map. lia.
  - cbn [_raw_audio_queue set_queue items]. fold stamped. rewrite <- Hlen, firstn_all.
    unfold stamped. clear -Hdec. induction Hdec; simpl; constructor; auto.
Qed.

Lemma enqueue_then_get_chunks_witness :
  fst (get_chunks 2 1 (run (map Enqueue [sample.chunk_a; sample.chunk_b]) sample.small_queue))
  = Ok [([1; -1; 2], (13 # 1)%Q); ([3; 4; -32768], (13 # 1)%Q)].
Proof.
  apply (enqueue_then_get_chunks (fst sample.small_queue) (snd sample.small_queue)
           [sample.chunk_a; sample.chunk_b] [[1; -1; 2]; [3; 4; -32768]] 1);
    [reflexivity | simpl; lia | reflexivity | repeat constructor].
Defined.

(** *** Python strings *)



Lemma append_nil (b : string) : (EmptyString ++ b)%string = b.
Proof. reflexivity. Qed.

Lemma append_cons (c : ascii) (a b : string) :
  (String c a ++ b)%string = String c (a ++ b)%string.
Proof. reflexivity. Qed.


Lemma contains_app (c : ascii) (a b : string) :
  contains c (a ++ b) = contains c a || contains c b.
Proof.
  induction a as [|x a IH]; [reflexivity|].
  rewrite append_cons. simpl. by rewrite IH, orb_assoc.
Qed.

Lemma split_no_sep (sep : ascii) (s : string) :
  contains sep s = false -> split sep s = [s].
Proof.
  induction s as [|c t IH]; [reflexivity|]. simpl.
  intros [Hc Ht]%orb_false_elim. by rewrite Hc, (IH Ht).
Qed.

Lemma split_app_sep (sep : ascii) (a b : string) :
  contains sep a = false ->
  split sep (a ++ String sep b) = a :: split sep b.
Proof.
  induction a as [|c a IH].
  - intros _. rewrite append_nil. simpl. by rewrite Ascii.eqb_refl.
  - rewrite append_cons. simpl. intros [Hc Ha]%orb_false_elim. by rewrite Hc, (IH Ha).
Qed.

Lemma split_join (sep : ascii) (parts : list string) :
  parts <> [] -> Forall (fun p => contains sep p = false) parts ->
  split sep (join sep parts) = parts.
Proof.
  induction parts as [|p [|q rest] IH]; [done| |]; intros _ Hall.
  - simpl. apply split_no_sep. by inversion Hall.
  - inversion Hall as [|? ? Hp Hrest]; subst.
    change (join sep (p :: q :: rest)) with (p ++ String sep (join sep (q :: rest)))%string.
    rewrite split_app_sep by exact Hp. f_equal. by apply IH.
Qed.

Lemma contains_join (sep : ascii) (p q : string) (rest : list string) :
  contains sep (join sep (p :: q :: rest)) = true.
Proof.
  change (join sep (p :: q :: rest)) with (p ++ String sep (join sep (q :: rest)))%string.
  rewrite contains_app. cbn [contains]. rewrite Ascii.eqb_refl. apply orb_true_r.
Qed.

(** *** model.py: tables *)



Section CommandTable.

Variable float_of_string : string -> res pyfloat.

Abbreviation add_command := (add_command float_of_string).
Abbreviation read_commands := (read_commands float_of_string).





(** X9: a line whose confidence parses to a float in [0, 1] gives its label
    that threshold and its second field as key, when no later line names
    the label again. *)
Theorem read_commands_confidence
    (before : list string) (line : string) (after : list string)
    (label k confidence : string) (v : pyfloat) (commands : gmap string command) :
  fields_of line = [label; k; confidence] ->
  confidence <> EmptyString ->
  float_of_string confidence = Ok v -> in_unit_interval v = true ->
  Forall (fun l => hd_error (fields_of l) <> Some label) after ->
  read_commands (before ++ line :: after) = Ok commands ->
  commands !! label = Some (Command k v).
Proof.
  intros Hf Hne Hv Hin Hafter Hr.
  unfold model.read_commands in Hr. rewrite map_app in Hr. simpl in Hr.
  apply for_each_app in Hr as (c0 & _ & Hr). simpl in Hr.
  apply bind_ok in Hr as (c1 & H1 & Hr).
  rewrite Hf in H1.
  rewrite (add_command_given _ _ _ _ _ _ Hne Hv Hin) in H1. injection H1 as <-.
  erewrite for_each_add_command_other; [|exact Hr|].
  - by rewrite lookup_insert_eq.
  - apply Forall_fmap. exact Hafter.
Qed.

End CommandTable.


Lemma read_commands_confidence_witness :
  exists commands,
    read_commands sample.float_of_decimal sample.command_lines = Ok commands /\
    commands !! "down"%string = Some (Command "KEY_DOWN" (PyFin (75 # 100))).
Proof.
  destruct (read_commands sample.float_of_decimal sample.command_lines)
    as [commands|e] eqn:Hr; [|by vm_compute in Hr].
  exists commands. split; [reflexivity|].
  apply (read_commands_confidence sample.float_of_decimal
           ["left,KEY_LEFT,
"; "up,KEY_UP,1.5
"]%string "down,KEY_DOWN,0.75
"%string [] "down"%string "KEY_DOWN"%string "0.75"%string (PyFin (75 # 100)) commands).
  - reflexivity.
  - discriminate.
  - reflexivity.
  - reflexivity.
  - constructor.
  - exact Hr.
Defined.

(** [make_interpreter] *)

(** X10: the model file name is cut at its first [@]: what precedes is the
    model path; what follows, up to a second [@], is the device of the
    delegate; without an [@] no device is given. *)
Theorem make_interpreter_args_spec (path device rest : string) :
  contains "@"%char path = false -> contains "@"%char device = false ->
  make_interpreter_args path = Ok (path, None) /\
  make_interpreter_args (path ++ "@" ++ device) = Ok (path, Some device) /\
  make_interpreter_args (path ++ "@" ++ device ++ "@" ++ rest) = Ok (path, Some device).
Proof.
  intros Hp Hd. unfold make_interpreter_args. split; [|split].
  - by rewrite split_no_sep.
  - change (path ++ "@" ++ device)%string with (path ++ String "@"%char device)%string.
    rewrite split_app_sep by exact Hp. by rewrite split_no_sep.
  - change (path ++ "@" ++ device ++ "@" ++ rest)%string
      with (path ++ String "@"%char (device ++ String "@"%char rest))%string.
    rewrite split_app_sep by exact Hp. by rewrite split_app_sep.
Qed.

Lemma make_interpreter_args_spec_witness :
  make_interpreter_args "model.tflite@usb:0" = Ok ("model.tflite"%string, Some "usb:0"%string).
Proof.
  apply (proj1 (proj2 (make_interpreter_args_spec "model.tflite" "usb:0" EmptyString
                         eq_refl eq_refl))).
Defined.

(** *** model.py: the candidate of a frame *)

Section CandidateFacts.

Variable argsort : list pyfloat -> list Z.
Variable labels : list string.
Variable commands : gmap string command.
Variable negative_threshold : pyfloat.

Abbreviation scan_rank := (scan_rank labels commands).
Abbreviation detect := (detect argsort labels commands negative_threshold).
Abbreviation passes := (passes labels commands).

(** A rank installs its index when the index passes the filter and no
    candidate is installed yet. *)
Lemma scan_rank_passes result top3 p d d' :
  scan_rank result top3 p d = Ok d' ->
  exists i, getitem top3 p = Ok i /\
            d' = if passes result i && (d <? 0) then i else d.
Proof.
  unfold model.scan_rank, model.passes. intros Hs.
  apply bind_ok in Hs as (i & Hi & Hs). exists i. split; [exact Hi|].
  apply bind_ok in Hs as (label & Hl & Hs). rewrite Hl.
  destruct (commands !! label) as [c|];
    [|injection Hs as <-; by rewrite andb_false_r].
  destruct (i =? 0) eqn:Ei; [by injection Hs as <-|].
  apply bind_ok in Hs as (s & Hsc & Hs). rewrite Hsc. cbn [negb andb].
  destruct (float_lt (conf c) s); [|by injection Hs as <-].
  destruct (d <? 0); by injection Hs as <-.
Qed.

Lemma scan_rank_error result top3 p d e :
  scan_rank result top3 p d = Raise e -> e = IndexError.
Proof.
  unfold model.scan_rank.
  destruct (getitem top3 p) as [i|e1] eqn:Hi; cbn [Py.bind];
    [|intros [= <-]; eapply getitem_error, Hi].
  destruct (getitem labels i) as [label|e1] eqn:Hl; cbn [Py.bind];
    [|intros [= <-]; eapply getitem_error, Hl].
  destruct (commands !! label) as [c|]; [|discriminate].
  destruct (i =? 0); [discriminate|].
  destruct (getitem result i) as [s|e1] eqn:Hsc; cbn [Py.bind];
    [|intros [= <-]; eapply getitem_error, Hsc].
  destruct (float_lt (conf c) s); [|discriminate].
  destruct (d <? 0); discriminate.
Qed.

Lemma scan_ranks_find result top3 ps :
  forall d0 d,
    for_each (scan_rank result top3) ps d0 = Ok d ->
    exists ranked,
      Forall2 (fun p i => getitem top3 p = Ok i) ps ranked /\
      (Forall (fun i => 0 <= i) ranked ->
       d = if d0 <? 0 then default d0 (List.find (passes result) ranked) else d0).
Proof.
  induction ps as [|p ps IH]; intros d0 d; cbn [for_each].
  - intros [= <-]. exists []. split; [constructor|]. intros _. simpl. by destruct (d0 <? 0).
  - intros Hs. apply bind_ok in Hs as (d1 & H1 & Hs).
    apply scan_rank_passes in H1 as (i & Hi & ->).
    apply IH in Hs as (ranked & Hall & Hd).
    exists (i :: ranked). split; [by constructor|].
    intros [Hi0 Hpos]%Forall_cons. specialize (Hd Hpos). cbn [List.find].
    destruct (passes result i) eqn:Hp; cbn [andb] in Hd; [|exact Hd].
    destruct (d0 <? 0) eqn:E0; [|by rewrite E0 in Hd]. cbn [default].
    assert (i <> 0).
    { unfold model.passes in Hp. apply andb_prop in Hp as [Hnz _].
      apply negb_true_iff, Z.eqb_neq in Hnz. exact Hnz. }
    replace (i <? 0) with false in Hd by (symmetry; apply Z.ltb_ge; lia). exact Hd.
Qed.

(** X11: below the negative threshold, the candidate of a frame is the
    first of the three best-ranked indices that passes the filter (a
    nonzero index, a label of the command table, a score above its
    confidence), and [-1] when none of them does. *)
Theorem detect_first_passing (result : list pyfloat) (r0 : pyfloat) (d : Z) :
  let top3 := slice_to (argsort (map float_neg result)) 3 in
  Forall (fun i => 0 <= i) (argsort (map float_neg result)) ->
  getitem result 0 = Ok r0 -> float_lt r0 negative_threshold = true ->
  detect result = Ok d ->
  length top3 = 3%nat /\
  d = default (-1) (List.find (passes result) top3).
Proof.
  intros top3 Hpos H0 Hlt. unfold model.detect. rewrite H0. cbn [Py.bind]. rewrite Hlt.
  fold top3. intros Hs.
  apply scan_ranks_find in Hs as (ranked & Hall & Hd).
  assert (Hlen : (length top3 <= 3)%nat).
  { unfold top3, slice_to. rewrite length_take. unfold slice_bound.
    destruct (Z.ltb_spec 3 0); lia. }
  inversion Hall as [|p0 i0 ps0 is0 H0' Hall0]; subst.
  inversion Hall0 as [|p1 i1 ps1 is1 H1' Hall1]; subst.
  inversion Hall1 as [|p2 i2 ps2 is2 H2' Hall2]; subst.
  inversion Hall2; subst.
  apply getitem_ok in H0' as (j0 & Hj0 & E0). cbn [Z.ltb Z.compare] in E0.
  apply getitem_ok in H1' as (j1 & Hj1 & E1). cbn [Z.ltb Z.compare] in E1.
  apply getitem_ok in H2' as (j2 & Hj2 & E2). cbn [Z.ltb Z.compare] in E2.
  assert (j0 = 0%nat) as -> by lia. assert (j1 = 1%nat) as -> by lia.
  assert (j2 = 2%nat) as -> by lia.
  assert (Htop : top3 = [i0; i1; i2]).
  { destruct top3 as [|a [|b [|c [|]]]]; simpl in *; try discriminate; try lia. congruence. }
  split; [by rewrite Htop|]. rewrite Htop. apply Hd. rewrite <- Htop.
  unfold top3, slice_to. by apply Forall_take.
Qed.

(** X12: below the negative threshold, a frame with fewer than three scores
    to rank ends the loop with [IndexError]. *)
Theorem detect_needs_three_ranks (result : list pyfloat) (r0 : pyfloat) :
  getitem result 0 = Ok r0 -> float_lt r0 negative_threshold = true ->
  (length (argsort (map float_neg result)) < 3)%nat ->
  detect result = Raise IndexError.
Proof.
  intros H0 Hlt Hlen. unfold model.detect. rewrite H0. cbn [Py.bind]. rewrite Hlt.
  set (top3 := slice_to (argsort (map float_neg result)) 3).
  assert (Hshort : (length top3 < 3)%nat).
  { unfold top3, slice_to. rewrite length_take. lia. }
  assert (Hlast : forall d, scan_rank result top3 2 d = Raise IndexError).
  { intros d. unfold model.scan_rank, getitem. cbn [Z.ltb Z.compare].
    replace (2 <? Z.of_nat (length top3)) with false by (symmetry; apply Z.ltb_ge; lia).
    by rewrite andb_false_r. }
  cbn [for_each].
  destruct (scan_rank result top3 0 (-1)) as [d1|e] eqn:E1; cbn [Py.bind];
    [|by apply scan_rank_error in E1 as ->].
  destruct (scan_rank result top3 1 d1) as [d2|e] eqn:E2; cbn [Py.bind];
    [|by apply scan_rank_error in E2 as ->].
  by rewrite Hlast.
Qed.

End CandidateFacts.

Lemma detect_first_passing_witness :
  detect np_argsort sample.labels sample.commands sample.threshold sample.frame_right = Ok 2.
Proof.
  destruct (detect np_argsort sample.labels sample.commands sample.threshold sample.frame_right)
    as [d|e] eqn:Hd; [|by vm_compute in Hd].
  destruct (detect_first_passing np_argsort sample.labels sample.commands sample.threshold
              sample.frame_right (PyFin (1 # 10)) d) as [_ ->].
  - apply np_argsort_indices.
  - reflexivity.
  - reflexivity.
  - exact Hd.
  - vm_compute. reflexivity.
Defined.

Lemma detect_needs_three_ranks_witness :
  detect np_argsort ["negative"; "go"]%string sample.commands sample.threshold
         [PyFin (1 # 10); PyFin (9 # 10)]
  = Raise IndexError.
Proof.
  apply (detect_needs_three_ranks np_argsort ["negative"; "go"]%string sample.commands
           sample.threshold [PyFin (1 # 10); PyFin (9 # 10)] (PyFin (1 # 10)));
    [reflexivity | reflexivity | vm_compute; lia].
Defined.

(** *** model.py: the debounce *)

Lemma dispatch_loop_same labels commands d l c (n : nat) :
  0 < d -> getitem labels d = Ok l -> commands !! l = Some c ->
  dispatch_loop labels commands (replicate n d) d = ([], Ok d).
Proof.
  intros Hd Hl Hc. induction n as [|n IH]; [reflexivity|].
  cbn [replicate dispatch_loop]. rewrite (dispatch_same labels commands d l c) by assumption.
  by rewrite IH.
Qed.

(** X13: a command held over any number of successive frames is dispatched
    once, and not at all when it was the last one detected. *)
Theorem dispatch_loop_held labels commands (d last : Z) (l : string) (c : command) (n : nat) :
  0 < d -> getitem labels d = Ok l -> commands !! l = Some c ->
  dispatch_loop labels commands (replicate (S n) d) last
  = (if d =? last then [] else [(l, key c)], Ok d).
Proof.
  intros Hd Hl Hc. cbn [replicate dispatch_loop].
  destruct (Z.eqb_spec d last) as [<-|Hne].
  - rewrite (dispatch_same labels commands d l c) by assumption.
    by rewrite (dispatch_loop_same labels commands d l c).
  - rewrite (dispatch_new labels commands d last l c) by assumption.
    by rewrite (dispatch_loop_same labels commands d l c).
Qed.

Lemma dispatch_loop_held_witness :
  dispatch_loop sample.labels sample.commands [1; 1; 1; 1] initial_detection
  = ([("left"%string, "KEY_LEFT"%string)], Ok 1).
Proof.
  apply (dispatch_loop_held sample.labels sample.commands 1 initial_detection
           "left"%string (Command "KEY_LEFT" default_conf) 3);
    [lia | reflexivity | reflexivity].
Defined.

(** *** run_model.py *)

Section PrintFacts.

Variable argsort : list pyfloat -> list Z.
Variable labels : list string.
Variable commands : gmap string command.
Variable negative_threshold : pyfloat.

Abbreviation print_rank := (run_model.print_rank labels commands).

Lemma print_rank_keeps result top p out out' x :
  print_rank result top p out = Ok out' -> x ∈ out -> x ∈ out'.
Proof.
  unfold run_model.print_rank. intros Hp Hx.
  apply bind_ok in Hp as (i & _ & Hp). apply bind_ok in Hp as (l & _ & Hp).
  apply bind_ok in Hp as (s & _ & Hp).
  destruct (negb (i =? 0) && _); [injection Hp as <-; apply elem_of_app; by left|].
  destruct (float_lt _ s); injection Hp as <-; [apply elem_of_app; by left | exact Hx].
Qed.

Lemma print_ranks_keep result top ps :
  forall out out' x,
    for_each (print_rank result top) ps out = Ok out' -> x ∈ out -> x ∈ out'.
Proof.
  induction ps as [|p ps IH]; intros out out' x; cbn [for_each].
  - by intros [= <-].
  - intros Hp Hx. apply bind_ok in Hp as (o1 & H1 & Hp).
    eapply IH; [exact Hp|]. eapply print_rank_keeps; eauto.
Qed.

(** A rank that installs a candidate makes [print_results] highlight it. *)
Lemma scan_ranks_printed result top ps :
  forall d0 d out out',
    for_each (model.scan_rank labels commands result top) ps d0 = Ok d ->
    for_each (print_rank result top) ps out = Ok out' ->
    d = d0 \/
    exists l s, getitem labels d = Ok l /\ getitem result d = Ok s /\
                run_model.Highlighted l s ∈ out'.
Proof.
  induction ps as [|p ps IH]; intros d0 d out out'; cbn [for_each].
  - intros [= <-] _. by left.
  - intros Hs Hp. apply bind_ok in Hs as (d1 & H1 & Hs).
    apply bind_ok in Hp as (o1 & Ho1 & Hp).
    destruct (IH _ _ _ _ Hs Hp) as [->|Hfound]; [|by right].
    unfold model.scan_rank in H1. unfold run_model.print_rank in Ho1.
    apply bind_ok in H1 as (i & Hi & H1). rewrite Hi in Ho1. cbn [Py.bind] in Ho1.
    apply bind_ok in H1 as (l & Hl & H1). rewrite Hl in Ho1. cbn [Py.bind] in Ho1.
    destruct (commands !! l) as [c|]; [|injection H1 as <-; by left].
    destruct (i =? 0) eqn:Ei; [injection H1 as <-; by left|].
    apply bind_ok in H1 as (s & Hsc & H1). rewrite Hsc in Ho1. cbn [Py.bind negb andb] in Ho1.
    destruct (float_lt (conf c) s); [|injection H1 as <-; by left].
    destruct (d0 <? 0); injection H1 as <-; [|by left].
    injection Ho1 as <-. right. exists l, s. split; [exact Hl|]. split; [exact Hsc|].
    eapply print_ranks_keep; [exact Hp|]. apply elem_of_app. right. apply list_elem_of_here.
Qed.

(** X14: the command [classify_audio] detects in a frame is among the
    labels [print_results] highlights for it. *)
Theorem print_results_highlights_detection (result : list pyfloat) (d : Z)
    (out : list run_model.printed) :
  model.detect argsort labels commands negative_threshold result = Ok d ->
  d <> -1 ->
  run_model.print_results argsort result commands labels = Ok out ->
  exists l s, getitem labels d = Ok l /\ getitem result d = Ok s /\
              run_model.Highlighted l s ∈ out.
Proof.
  unfold model.detect, run_model.print_results. intros Hd Hne Hp.
  apply bind_ok in Hd as (r0 & _ & Hd).
  destruct (float_lt r0 negative_threshold); [|by injection Hd as <-].
  destruct (scan_ranks_printed _ _ _ _ _ _ _ Hd Hp) as [->|Hfound]; [done | exact Hfound].
Qed.

End PrintFacts.

Lemma print_results_highlights_detection_witness :
  exists out s,
    run_model.print_results np_argsort sample.frame_right sample.commands sample.labels = Ok out /\
    run_model.Highlighted "right"%string s ∈ out.
Proof.
  destruct (run_model.print_results np_argsort sample.frame_right sample.commands sample.labels)
    as [out|e] eqn:Hp; [|by vm_compute in Hp].
  destruct (print_results_highlights_detection np_argsort sample.labels sample.commands
              sample.threshold sample.frame_right 2 out)
    as (l & s & Hl & _ & Hin); [vm_compute; reflexivity | lia | exact Hp |].
  injection Hl as <-. exists out, s. split; [reflexivity | exact Hin].
Defined.

(** *** model.py: the hop of the extractor *)

Section HopFacts.

Context {F : Type} `{NumpyFloat F}.
Variable log_mel_spectrogram : list Q -> Z -> list (list F).

(** X15: the constructor accepts every nonzero hop that divides 198,
    negative ones included, and refuses the others; on an extractor with a
    negative hop no call of [get_next_spectrogram] returns a frame. *)
Theorem negative_hop_never_returns :
  (forall (hop : Z) (h : gmap loc (ndarray F)),
      is_ok (new_extractor hop h) = true <-> hop <> 0 /\ (hop | 198)) /\
  (forall (hop : Z) (h : gmap loc (ndarray F)),
      is_ok (new_extractor hop h) = false ->
      new_extractor hop h = Raise (if hop =? 0 then ZeroDivisionError else ValueError)) /\
  (forall w : World,
      frame_hop_spectra (extractor w) < 0 ->
      is_ok (fst (get_next_spectrogram log_mel_spectrogram w)) = false).
Proof.
  split; [|split].
  - intros hop h. unfold new_extractor.
    destruct (Z.eqb_spec hop 0) as [->|Hnz]; [cbn [is_ok]; split; [discriminate | tauto]|].
    rewrite <- (Z.mod_divide 198 hop) by exact Hnz.
    destruct (Z.eqb_spec (198 mod hop) 0) as [Hd|Hd]; cbn [negb is_ok].
    + unfold alloc. cbn [is_ok]. tauto.
    + split; [discriminate | tauto].
  - intros hop h. unfold new_extractor.
    destruct (hop =? 0); [reflexivity|].
    destruct (negb (198 mod hop =? 0)); [reflexivity|]. unfold alloc. discriminate.
  - intros w Hneg.
    destruct (get_next_spectrogram log_mel_spectrogram w) as [[l|e] w'] eqn:Hcall;
      [|reflexivity].
    apply get_next_spectrogram_ok in Hcall
      as (a & a1 & spectra & a2 & w2 & _ & _ & _ & Hs & _).
    apply _get_next_spectra_ok in Hs as (_ & _ & _ & _ & Hlen). lia.
Qed.

End HopFacts.

Lemma negative_hop_never_returns_witness :
  is_ok (new_extractor (F := pyfloat) (-33) ∅) = true /\
  is_ok (fst (get_next_spectrogram sample.log_mel_stand_in
                (MkWorld (MkExtractor 32 198 (-33) 3 [] 1%positive) ∅ sample.recording16)))
  = false.
Proof.
  destruct (negative_hop_never_returns (F := pyfloat) sample.log_mel_stand_in)
    as (Hnew & _ & Hcall).
  split.
  - apply Hnew. split; [lia | exists (-6); lia].
  - apply Hcall. simpl. lia.
Defined.

(** *** run_yt_voice_control.py *)

Lemma string_length_append (a b : string) :
  String.length (a ++ b) = (String.length a + String.length b)%nat.
Proof. induction a as [|c a IH]; [reflexivity|]. rewrite append_cons. simpl. by rewrite IH. Qed.

(** The names of the lookup table are longer than one character and have
    no [+]. *)
Lemma _command_lookup_name (name : string) (k : run_yt_voice_control.key) :
  run_yt_voice_control._command_lookup name = Some k ->
  contains "+"%char name = false /\ (1 < String.length name)%nat.
Proof.
  unfold run_yt_voice_control._command_lookup.
  destruct (String.eqb_spec name "left") as [->|_]; [intros _; split; [reflexivity | simpl; lia]|].
  destruct (String.eqb_spec name "right") as [->|_]; [intros _; split; [reflexivity | simpl; lia]|].
  destruct (String.eqb_spec name "up") as [->|_]; [intros _; split; [reflexivity | simpl; lia]|].
  destruct (String.eqb_spec name "down") as [->|_]; [intros _; split; [reflexivity | simpl; lia]|].
  destruct (String.eqb_spec name "shift") as [->|_]; [intros _; split; [reflexivity | simpl; lia]|].
  discriminate.
Qed.

Lemma key_of_nonempty (part : string) (k : run_yt_voice_control.key) :
  run_yt_voice_control.key_of part = Some k -> (1 <= String.length part)%nat.
Proof.
  unfold run_yt_voice_control.key_of.
  destruct (Nat.eqb_spec (String.length part) 1) as [->|_]; [lia|].
  intros Hk. apply _command_lookup_name in Hk as [_ Hlen]. lia.
Qed.

(** The loop over the parts of a combination: the parts that parse each
    add their key and press all the keys so far. *)
Lemma press_each_app (command : string) (good : list string)
    (ks : list run_yt_voice_control.key) (rest : list string) :
  Forall2 (fun p k => run_yt_voice_control.key_of p = Some k) good ks ->
  forall pressed,
    run_yt_voice_control.press_each command (good ++ rest) pressed
    = map (fun n => run_yt_voice_control.press_keys (pressed ++ take (S n) ks))
          (seq 0 (length ks))
      ++ run_yt_voice_control.press_each command rest (pressed ++ ks).
Proof.
  induction 1 as [|p k good ks Hk _ IH]; intros pressed.
  - simpl. by rewrite app_nil_r.
  - assert (Hstep : run_yt_voice_control.press_each command ((p :: good) ++ rest) pressed
                    = run_yt_voice_control.press_keys (pressed ++ [k])
                      :: run_yt_voice_control.press_each command (good ++ rest) (pressed ++ [k])).
    { cbn [app run_yt_voice_control.press_each].
      unfold run_yt_voice_control.key_of in Hk.
      destruct (String.length p =? 1)%nat; [by injection Hk as <-|]. by rewrite Hk. }
    rewrite Hstep, IH. cbn [length seq map]. rewrite <- seq_shift, map_map.
    cbn [take app]. rewrite <- !app_assoc. cbn [app]. f_equal. f_equal.
    apply map_ext. intros n. by rewrite <- app_assoc.
Qed.

Lemma join_length (sep : ascii) (p q : string) (rest : list string) :
  String.length (join sep (p :: q :: rest))
  = (String.length p + S (String.length (join sep (q :: rest))))%nat.
Proof.
  change (join sep (p :: q :: rest)) with (p ++ String sep (join sep (q :: rest)))%string.
  by rewrite string_length_append.
Qed.

(** What [run_command] does on a command with a [+] that is neither one
    character nor a name of the table. *)
Lemma run_command_parts (parts : list string) :
  (2 <= length parts)%nat ->
  Forall (fun p => contains "+"%char p = false) parts ->
  String.length (join "+"%char parts) <> 1%nat ->
  run_yt_voice_control.run_command (join "+"%char parts)
  = run_yt_voice_control.press_each (join "+"%char parts) parts [].
Proof.
  intros Hlen Hall Hne. unfold run_yt_voice_control.run_command.
  destruct (Nat.eqb_spec (String.length (join "+"%char parts)) 1) as [|_]; [done|].
  destruct parts as [|p [|q rest]]; [simpl in Hlen; lia | simpl in Hlen; lia|].
  destruct (run_yt_voice_control._command_lookup _) as [k|] eqn:Hk.
  { apply _command_lookup_name in Hk as [Hk _]. by rewrite contains_join in Hk. }
  rewrite contains_join. by rewrite split_join.
Qed.

(** X16: for a combination such as [shift+n], whose parts all parse,
    [run_command] calls [press_keys] once per part, with the keys of the
    parts read so far: first [shift] alone, then [shift] and [n]. *)
Theorem run_command_combination (parts : list string) (ks : list run_yt_voice_control.key) :
  (2 <= length parts)%nat ->
  Forall (fun p => contains "+"%char p = false) parts ->
  Forall2 (fun p k => run_yt_voice_control.key_of p = Some k) parts ks ->
  run_yt_voice_control.run_command (join "+"%char parts)
  = map (fun n => run_yt_voice_control.press_keys (take (S n) ks)) (seq 0 (length ks)).
Proof.
  intros Hlen Hall Hks. rewrite run_command_parts; [|exact Hlen|exact Hall|].
  - rewrite <- (app_nil_r parts) at 2. rewrite (press_each_app _ parts ks [] Hks).
    simpl. by rewrite app_nil_r.
  - destruct parts as [|p [|q rest]]; [simpl in Hlen; lia | simpl in Hlen; lia|].
    rewrite join_length. inversion Hks as [|? k ? ? Hk _]; subst.
    apply key_of_nonempty in Hk. lia.
Qed.

Lemma run_command_combination_witness :
  run_yt_voice_control.run_command "shift+n"
  = [run_yt_voice_control.press_keys [run_yt_voice_control.shift_key];
     run_yt_voice_control.press_keys
       [run_yt_voice_control.shift_key; run_yt_voice_control.Character "n"]].
Proof.
  apply (run_command_combination ["shift"; "n"]%string
           [run_yt_voice_control.shift_key; run_yt_voice_control.Character "n"]);
    [simpl; lia | repeat constructor | repeat constructor].
Defined.

(** X17: at the first part that does not parse, [run_command] prints its
    message and stops; the keys of the parts before it have been pressed
    already. *)
Theorem run_command_unparsed (good : list string) (ks : list run_yt_voice_control.key)
    (bad : string) (rest : list string) :
  let command := join "+"%char (good ++ bad :: rest) in
  (2 <= length (good ++ bad :: rest))%nat ->
  Forall (fun p => contains "+"%char p = false) (good ++ bad :: rest) ->
  String.length command <> 1%nat ->
  Forall2 (fun p k => run_yt_voice_control.key_of p = Some k) good ks ->
  run_yt_voice_control.key_of bad = None ->
  run_yt_voice_control.run_command command
  = map (fun n => run_yt_voice_control.press_keys (take (S n) ks)) (seq 0 (length ks))
    ++ [run_yt_voice_control.print_cant_parse command].
Proof.
  intros command Hlen Hall Hne Hks Hbad. unfold command.
  rewrite run_command_parts by assumption.
  rewrite (press_each_app _ good ks (bad :: rest) Hks). f_equal.
  cbn [run_yt_voice_control.press_each].
  unfold run_yt_voice_control.key_of in Hbad.
  destruct (String.length bad =? 1)%nat; [discriminate|]. by rewrite Hbad.
Qed.

Lemma run_command_unparsed_witness :
  run_yt_voice_control.run_command "shift+enter+n"
  = [run_yt_voice_control.press_keys [run_yt_voice_control.shift_key];
     run_yt_voice_control.print_cant_parse "shift+enter+n"].
Proof.
  apply (run_command_unparsed ["shift"]%string [run_yt_voice_control.shift_key]
           "enter"%string ["n"]%string);
    [simpl; lia | repeat constructor | simpl; lia | repeat constructor | reflexivity].
Defined.

(** *** run_hearing_snake.py *)

Section SnakeFacts.

Import run_hearing_snake.


Lemma range_down_S (n : nat) :
  range_down (Z.of_nat (S n)) 0 = Z.of_nat (S n) :: range_down (Z.of_nat n) 0.
Proof.
  unfold range_down. rewrite !Z.sub_0_r, !Nat2Z.id. cbn [seq map].
  apply (f_equal2 cons); [lia|]. rewrite <- seq_shift, map_map. apply map_ext. intros j. lia.
Qed.

Lemma setitem_ok {A} (l l' : list A) (i : Z) (v : A) :
  setitem l i v = Ok l' -> 0 <= i ->
  (Z.to_nat i < length l)%nat /\ l' = <[Z.to_nat i := v]> l.
Proof.
  unfold setitem. intros Hs Hi.
  replace (i <? 0) with false in Hs by (symmetry; apply Z.ltb_ge; lia).
  destruct (Z.ltb_spec i (Z.of_nat (length l))); rewrite ?andb_false_r in Hs; [|discriminate].
  destruct (0 <=? i); [|discriminate]. injection Hs as <-. split; [lia | reflexivity].
Qed.

(** One step of the loop that moves the body. *)
Lemma follow_ok (n : nat) (xs ys xs' ys' : list Z) :
  Player.follow (Z.of_nat (S n)) (xs, ys) = Ok (xs', ys') ->
  exists xv yv,
    xs !! n = Some xv /\ ys !! n = Some yv /\
    (S n < length xs)%nat /\ (S n < length ys)%nat /\
    xs' = <[S n := xv]> xs /\ ys' = <[S n := yv]> ys.
Proof.
  unfold Player.follow. cbn [fst snd]. intros Hf.
  apply bind_ok in Hf as (xv & Hxv & Hf). apply bind_ok in Hf as (x1 & Hx1 & Hf).
  apply bind_ok in Hf as (yv & Hyv & Hf). apply bind_ok in Hf as (y1 & Hy1 & Hf).
  injection Hf as <- <-.
  apply getitem_ok in Hxv as (j & Hj & Ej).
  replace (Z.of_nat (S n) - 1 <? 0) with false in Ej by (symmetry; apply Z.ltb_ge; lia).
  assert (j = n) as -> by lia.
  apply getitem_ok in Hyv as (j & Hj' & Ej').
  replace (Z.of_nat (S n) - 1 <? 0) with false in Ej' by (symmetry; apply Z.ltb_ge; lia).
  assert (j = n) as -> by lia.
  apply setitem_ok in Hx1 as [Hlx ->]; [|lia]. apply setitem_ok in Hy1 as [Hly ->]; [|lia].
  rewrite Nat2Z.id in *. exists xv, yv. auto 10.
Qed.

(** The loop [for i in range(length - 1, 0, -1)]: block [i] takes the
    place of block [i - 1]. *)
Lemma follow_all (n : nat) :
  forall xs ys xs' ys',
    for_each Player.follow (range_down (Z.of_nat n) 0) (xs, ys) = Ok (xs', ys') ->
    forall i : nat,
      xs' !! i = (if decide (1 <= i <= n)%nat then xs !! (i - 1)%nat else xs !! i) /\
      ys' !! i = (if decide (1 <= i <= n)%nat then ys !! (i - 1)%nat else ys !! i).
Proof.
  induction n as [|n IH]; intros xs ys xs' ys'.
  - cbn. intros [= <- <-] i. destruct (decide _); [lia | done].
  - rewrite range_down_S. cbn [for_each]. intros Hf.
    apply bind_ok in Hf as ([x1 y1] & H1 & Hf).
    apply follow_ok in H1 as (xv & yv & Hxv & Hyv & Hlx & Hly & -> & ->).
    intros i. destruct (IH _ _ _ _ Hf i) as [Hx Hy]. rewrite Hx, Hy.
    destruct (decide (1 <= i <= n)%nat) as [Hi|Hi].
    + rewrite !list_lookup_insert_ne by lia.
      destruct (decide (1 <= i <= S n)%nat); [done | lia].
    + destruct (decide (i = S n)) as [->|Hne].
      * rewrite !list_lookup_insert_eq by lia.
        destruct (decide (1 <= S n <= S n)%nat); [|lia].
        replace (S n - 1)%nat with n by lia. by rewrite Hxv, Hyv.
      * rewrite !list_lookup_insert_ne by lia.
        destruct (decide (1 <= i <= S n)%nat); [lia | done].
Qed.

Lemma getitem_head {A} (a : A) (t : list A) : getitem (a :: t) 0 = Ok a.
Proof. reflexivity. Qed.

Lemma setitem_head {A} (a v : A) (t : list A) : setitem (a :: t) 0 v = Ok (v :: t).
Proof. reflexivity. Qed.

(** One of the four [if] statements that move the head. *)
Lemma head_block (l r : list Z) (f g : Z -> Z) (cond : Z -> bool) :
  (x0 <- getitem l 0 ;;
   l' <- setitem l 0 (f x0) ;;
   x1 <- getitem l' 0 ;;
   if cond x1 then setitem l' 0 (g x1) else Ok l') = Ok r ->
  exists a t, l = a :: t /\ r = (if cond (f a) then g (f a) else f a) :: t.
Proof.
  destruct l as [|a t]; [discriminate|].
  rewrite getitem_head. cbn [Py.bind]. rewrite setitem_head. cbn [Py.bind].
  rewrite getitem_head. cbn [Py.bind]. intros Hr. exists a, t. split; [reflexivity|].
  destruct (cond (f a)); [rewrite setitem_head in Hr|]; by injection Hr as <-.
Qed.

(** The head after the move, along one axis: a step forward or backward,
    brought back to the other side when it leaves the board. *)
Abbreviation wrapped size forward a :=
  (if forward : bool then
     (if a + Player.step >? size then a + Player.step - size - Player.step
      else a + Player.step)
   else
     (if a - Player.step <? 0 then a - Player.step + size else a - Player.step)).

Lemma move_head_ok (p : Player.t) (xs ys xs' ys' : list Z) :
  Player.move_head p (xs, ys) = Ok (xs', ys') ->
  let d := Player._direction p in
  ((d <> 0 /\ d <> 1 /\ xs' = xs) \/
   (exists a t, xs = a :: t /\
      ((d = 0 /\ xs' = wrapped (Player._display_width p) true a :: t) \/
       (d = 1 /\ xs' = wrapped (Player._display_width p) false a :: t)))) /\
  ((d <> 2 /\ d <> 3 /\ ys' = ys) \/
   (exists a t, ys = a :: t /\
      ((d = 3 /\ ys' = wrapped (Player._display_height p) true a :: t) \/
       (d = 2 /\ ys' = wrapped (Player._display_height p) false a :: t)))).
Proof.
  intros Hm d. unfold Player.move_head in Hm. cbn [fst snd] in Hm. fold d in Hm.
  apply bind_ok in Hm as (x1 & Hx1 & Hm). apply bind_ok in Hm as (x2 & Hx2 & Hm).
  apply bind_ok in Hm as (y1 & Hy1 & Hm). apply bind_ok in Hm as (y2 & Hy2 & Hm).
  injection Hm as <- <-. split.
  - destruct (Z.eqb_spec d 0) as [E0|E0].
    + apply (head_block xs x1 (fun x0 => x0 + Player.step)
               (fun x0 => x0 - Player._display_width p - Player.step)
               (fun x0 => x0 >? Player._display_width p)) in Hx1 as (a & t & -> & ->).
      destruct (Z.eqb_spec d 1) as [E1|E1]; [lia|]. injection Hx2 as <-.
      right. exists a, t. split; [reflexivity|]. by left.
    + injection Hx1 as <-. destruct (Z.eqb_spec d 1) as [E1|E1].
      * apply (head_block xs x2 (fun x0 => x0 - Player.step)
                 (fun x0 => x0 + Player._display_width p)
                 (fun x0 => x0 <? 0)) in Hx2 as (a & t & -> & ->).
        right. exists a, t. split; [reflexivity|]. by right.
      * injection Hx2 as <-. by left.
  - destruct (Z.eqb_spec d 2) as [E2|E2].
    + apply (head_block ys y1 (fun y0 => y0 - Player.step)
               (fun y0 => y0 + Player._display_height p)
               (fun y0 => y0 <? 0)) in Hy1 as (a & t & -> & ->).
      destruct (Z.eqb_spec d 3) as [E3|E3]; [lia|]. injection Hy2 as <-.
      right. exists a, t. split; [reflexivity|]. by right.
    + injection Hy1 as <-. destruct (Z.eqb_spec d 3) as [E3|E3].
      * apply (head_block ys y2 (fun y0 => y0 + Player.step)
                 (fun y0 => y0 - Player._display_height p - Player.step)
                 (fun y0 => y0 >? Player._display_height p)) in Hy2 as (a & t & -> & ->).
        right. exists a, t. split; [reflexivity|]. by left.
      * injection Hy2 as <-. by left.
Qed.

Lemma update_position_immediately_ok (p p' : Player.t) :
  Player.update_position_immediately p = Ok p' ->
  exists x1 y1,
    for_each Player.follow (range_down (Player.length p - 1) 0) (Player.x p, Player.y p)
    = Ok (x1, y1) /\
    Player.move_head p (x1, y1) = Ok (Player.x p', Player.y p') /\
    Player.traveled_dist p' = Player.traveled_dist p + Player.step /\
    Player.length p' = Player.length p /\
    Player._direction p' = Player._direction p.
Proof.
  unfold Player.update_position_immediately. intros Hu.
  apply bind_ok in Hu as ([x1 y1] & Hf & Hu). apply bind_ok in Hu as ([x2 y2] & Hm & Hu).
  injection Hu as <-. exists x1, y1. cbn. auto.
Qed.

(** X19: in a position update every block of the body takes the place of
    the block in front of it, the blocks beyond the length of the snake
    stay where they are, and the distance travelled grows by one step. *)
Theorem snake_body_follows (p p' : Player.t) :
  1 <= Player.length p ->
  Player.update_position_immediately p = Ok p' ->
  (forall i : nat,
      (1 <= i < Z.to_nat (Player.length p))%nat ->
      Player.x p' !! i = Player.x p !! (i - 1)%nat /\
      Player.y p' !! i = Player.y p !! (i - 1)%nat) /\
  (forall i : nat,
      (Z.to_nat (Player.length p) <= i)%nat ->
      Player.x p' !! i = Player.x p !! i /\ Player.y p' !! i = Player.y p !! i) /\
  Player.traveled_dist p' = Player.traveled_dist p + Player.step /\
  Player.length p' = Player.length p /\
  Player._direction p' = Player._direction p.
Proof.
  intros Hlen Hu.
  apply update_position_immediately_ok in Hu as (x1 & y1 & Hf & Hm & Hdist & Hl & Hd).
  replace (Player.length p - 1) with (Z.of_nat (Z.to_nat (Player.length p - 1))) in Hf by lia.
  pose proof (follow_all _ _ _ _ _ Hf) as Hbody.
  apply move_head_ok in Hm as [Hx Hy].
  assert (Htail : forall i : nat, (1 <= i)%nat ->
             Player.x p' !! i = x1 !! i /\ Player.y p' !! i = y1 !! i).
  { intros [|i] Hi; [lia|]. split.
    - destruct Hx as [(_ & _ & ->)|(a & t & -> & [[_ ->]|[_ ->]])]; reflexivity.
    - destruct Hy as [(_ & _ & ->)|(a & t & -> & [[_ ->]|[_ ->]])]; reflexivity. }
  split; [|split; [|auto]].
  - intros i Hi. destruct (Htail i ltac:(lia)) as [-> ->].
    destruct (Hbody i) as [-> ->]. destruct (decide _); [done | lia].
  - intros i Hi. destruct (Htail i ltac:(lia)) as [-> ->].
    destruct (Hbody i) as [-> ->]. destruct (decide _); [lia | done].
Qed.

(** X20: a position update keeps the head within one step of the board:
    its coordinates stay in [(-step, width]] and [(-step, height]]. *)
Theorem snake_head_stays_on_board (p p' : Player.t) (x0 y0 : Z) :
  Player.step <= Player._display_width p ->
  Player.step <= Player._display_height p ->
  Player.x p !! 0%nat = Some x0 -> Player.y p !! 0%nat = Some y0 ->
  - Player.step < x0 <= Player._display_width p ->
  - Player.step < y0 <= Player._display_height p ->
  Player.update_position_immediately p = Ok p' ->
  exists x0' y0',
    Player.x p' !! 0%nat = Some x0' /\ Player.y p' !! 0%nat = Some y0' /\
    - Player.step < x0' <= Player._display_width p /\
    - Player.step < y0' <= Player._display_height p.
Proof.
  intros Hw Hh Hx0 Hy0 Hxr Hyr Hu.
  apply update_position_immediately_ok in Hu as (x1 & y1 & Hf & Hm & _).
  assert (H1 : x1 !! 0%nat = Some x0 /\ y1 !! 0%nat = Some y0).
  { destruct (Z.le_gt_cases 0 (Player.length p - 1)) as [Hlen|Hlen].
    - replace (Player.length p - 1)
        with (Z.of_nat (Z.to_nat (Player.length p - 1))) in Hf by lia.
      destruct (follow_all _ _ _ _ _ Hf 0%nat) as [H1x H1y].
      destruct (decide _) in H1x, H1y; [lia|]. by rewrite H1x, H1y.
    - unfold range_down in Hf.
      replace (Z.to_nat (Player.length p - 1 - 0)) with 0%nat in Hf by lia.
      cbn in Hf. by injection Hf as <- <-. }
  destruct H1 as [H1x H1y].
  apply move_head_ok in Hm as [Hx Hy].
  assert (Hwrap : forall size forward a,
             Player.step <= size -> - Player.step < a <= size ->
             - Player.step < wrapped size forward a <= size).
  { intros size forward a Hs Ha. unfold Player.step, Player.block_size in *.
    destruct forward.
    - rewrite Z.gtb_ltb. destruct (Z.ltb_spec size (a + 30)); lia.
    - destruct (Z.ltb_spec (a - 30) 0); lia. }
  assert (Hxs : exists x0', Player.x p' !! 0%nat = Some x0' /\
                            - Player.step < x0' <= Player._display_width p).
  { destruct Hx as [(_ & _ & ->)|(a & t & -> & [[_ ->]|[_ ->]])]; [by eauto| |];
      injection H1x as ->; eexists; (split; [reflexivity|]);
      [by apply (Hwrap _ true) | by apply (Hwrap _ false)]. }
  assert (Hys : exists y0', Player.y p' !! 0%nat = Some y0' /\
                            - Player.step < y0' <= Player._display_height p).
  { destruct Hy as [(_ & _ & ->)|(a & t & -> & [[_ ->]|[_ ->]])]; [by eauto| |];
      injection H1y as ->; eexists; (split; [reflexivity|]);
      [by apply (Hwrap _ true) | by apply (Hwrap _ false)]. }
  destruct Hxs as (x0' & ? & ?), Hys as (y0' & ? & ?). exists x0', y0'. auto.
Qed.

(** *** The best scores *)

Lemma descending_take (n : nat) :
  forall l, descending l -> descending (take n l).
Proof.
  induction n as [|n IH]; intros [|a l]; cbn [take descending]; auto.
  intros [Ha Hl]. split; [|by apply IH].
  destruct n, l; cbn [take]; auto.
Qed.

Lemma slice_to_take {A} (l : list A) (n : nat) :
  slice_to l (Z.of_nat n) = take n l.
Proof.
  unfold slice_to, slice_bound.
  replace (Z.of_nat n <? 0) with false by (symmetry; apply Z.ltb_ge; lia).
  destruct (Z.le_gt_cases (Z.of_nat n) (Z.of_nat (length l))).
  - f_equal. lia.
  - rewrite !take_ge by lia. reflexivity.
Qed.

Lemma list_insert_S (k : nat) (v b : Z) (l : list Z) :
  list_insert (Z.of_nat (S k)) v (b :: l) = b :: list_insert (Z.of_nat k) v l.
Proof. unfold list_insert. by rewrite !Nat2Z.id. Qed.

(** The rank the loop over the best scores finds for a score that beats
    the worst of them, and the table with the score inserted there. *)
Lemma enumerate_insert (score : Z) (l : list Z) :
  forall idx r0 : Z,
    descending l ->
    (exists b, last l = Some b /\ b < score) ->
    exists k : nat,
      enumerate_until score l idx r0 = idx + Z.of_nat k /\
      (k < length l)%nat /\
      descending (list_insert (Z.of_nat k) score l) /\
      (head (list_insert (Z.of_nat k) score l) = Some score \/
       head (list_insert (Z.of_nat k) score l) = head l).
Proof.
  induction l as [|b rest IH]; intros idx r0 Hdesc (w & Hlast & Hw); [discriminate|].
  cbn [enumerate_until]. rewrite Z.gtb_ltb.
  destruct (Z.ltb_spec b score) as [Hb|Hb].
  - exists 0%nat. split; [lia|]. split; [simpl; lia|].
    change (list_insert (Z.of_nat 0) score (b :: rest)) with (score :: b :: rest).
    split; [|by left]. split; [lia | exact Hdesc].
  - destruct rest as [|c rest'] eqn:Hrest; [injection Hlast as ->; lia|].
    rewrite <- Hrest in *.
    assert (Hlast' : last rest = Some w) by (rewrite Hrest in *; exact Hlast).
    destruct Hdesc as [Hhead Hdesc].
    destruct (IH (idx + 1) idx Hdesc (ex_intro _ w (conj Hlast' Hw)))
      as (k & Hk & Hlen & Hins & Hh).
    exists (S k). split; [rewrite Hk; lia|]. split; [simpl; lia|].
    rewrite list_insert_S. split; [|by right].
    split; [|exact Hins].
    destruct (list_insert (Z.of_nat k) score rest) as [|h t] eqn:Hl; [exact I|].
    destruct Hh as [Hh|Hh]; simpl in Hh.
    + injection Hh as ->. lia.
    + rewrite Hrest in Hh, Hhead. simpl in Hh. injection Hh as ->. exact Hhead.
Qed.

Lemma list_insert_elem (k : nat) (v : Z) (l : list Z) :
  (k <= length l)%nat ->
  list_insert (Z.of_nat k) v l !! k = Some v /\
  (forall u, u ∈ list_insert (Z.of_nat k) v l -> u = v \/ u ∈ l).
Proof.
  intros Hk. unfold list_insert. rewrite Nat2Z.id. split.
  - rewrite lookup_app_r by (rewrite length_take; lia).
    rewrite length_take. by replace (k - k `min` length l)%nat with 0%nat by lia.
  - intros u [Hu|[->|Hu]%elem_of_cons]%elem_of_app; [right| by left |right].
    + by apply subseteq_take in Hu.
    + by apply subseteq_drop in Hu.
Qed.

(** X21: the table of best scores stays sorted, best first, and no longer
    than ten entries; its entries are old ones and the new score, which
    enters the table whenever the table changes. *)
Theorem best_scores_stay_sorted (score : Z) (best best' : list Z) (text : string) :
  descending best -> (length best <= 10)%nat ->
  _update_gameover_text score best = Ok (best', text) ->
  descending best' /\ (length best' <= 10)%nat /\
  (forall v, v ∈ best' -> v = score \/ v ∈ best) /\
  (best' = best \/ score ∈ best').
Proof.
  intros Hdesc Hlen. unfold _update_gameover_text.
  change NUMBER_OF_SCORES_TO_KEEP with (Z.of_nat 10). rewrite !slice_to_take.
  intros Hu. apply bind_ok in Hu as (b0 & Hb0 & Hu). apply bind_ok in Hu as ([r msg] & Hr & Hu).
  cbn [fst snd] in Hu. injection Hu as <- _.
  apply getitem_first in Hb0. rewrite Z.gtb_ltb in Hr.
  destruct (Z.ltb_spec b0 score) as [Hbeat|Hbeat].
  - change (list_insert 0 score best) with (score :: best) in Hr.
    remember (score :: best) as ins eqn:Hins in Hr. injection Hr as <- _. subst ins.
    split; [|split; [|split]].
    + apply descending_take. split; [|exact Hdesc].
      destruct best as [|b best]; [exact I|]. injection Hb0 as ->. lia.
    + rewrite length_take. lia.
    + intros v Hv%subseteq_take. by apply elem_of_cons in Hv.
    + right. cbn [take]. apply list_elem_of_here.
  - apply bind_ok in Hr as (worst & Hworst & Hr).
    apply getitem_ok in Hworst as (j & Hj & Ej).
    assert (Hlast : last best = Some worst).
    { rewrite last_lookup. destruct (Z.ltb_spec (Z.of_nat (length best) - 1) 0).
      - destruct best; [discriminate | simpl in *; lia].
      - by replace (Nat.pred (length best)) with j by lia. }
    rewrite Z.gtb_ltb in Hr. destruct (Z.ltb_spec worst score) as [Hw|Hw].
    + destruct (enumerate_insert score best 0 (Z.of_nat 10) Hdesc
                  (ex_intro _ worst (conj Hlast Hw))) as (k & Hrank & Hk & Hins & _).
      rewrite Hrank, Z.add_0_l in Hr.
      remember (list_insert (Z.of_nat k) score best) as ins eqn:Hi in Hr.
      injection Hr as <- _. subst ins.
      destruct (list_insert_elem k score best ltac:(lia)) as [Hat Hsub].
      split; [|split; [|split]].
      * by apply descending_take.
      * rewrite length_take. lia.
      * intros v Hv%subseteq_take. by apply Hsub.
      * right. apply (list_elem_of_lookup_2 _ k). rewrite lookup_take_lt by lia. exact Hat.
    + injection Hr as <- _. split; [exact Hdesc|]. split; [exact Hlen|].
      split; [by right | by left].
Qed.

(** X22: the text of the best scores ends before the first score of 0:
    what follows it in the table is not shown. *)
Theorem best_scores_text_stops_at_zero (shown hidden : list Z) :
  _best_scores_to_text (shown ++ 0 :: hidden) = _best_scores_to_text shown.
Proof.
  unfold _best_scores_to_text. generalize 0%nat.
  induction shown as [|a shown IH]; intros idx; cbn [app scores_to_text].
  - reflexivity.
  - destruct (a =? 0); [reflexivity|]. by rewrite IH.
Qed.

End SnakeFacts.

Lemma snake_body_follows_witness :
  let p := run_hearing_snake.Player.Make [60; 30; 0; -100] [0; 0; 0; -100] 3 3 0 800 600 0 false in
  exists p',
    run_hearing_snake.Player.update_position_immediately p = Ok p' /\
    run_hearing_snake.Player.x p' !! 2%nat = Some 30 /\
    run_hearing_snake.Player.y p' = [30; 0; 0; -100].
Proof.
  intros p.
  destruct (run_hearing_snake.Player.update_position_immediately p) as [p'|e] eqn:Hu;
    [|by vm_compute in Hu].
  exists p'. split; [reflexivity|].
  destruct (snake_body_follows p p' ltac:(simpl; lia) Hu) as (Hbody & _).
  destruct (Hbody 2%nat ltac:(simpl; lia)) as [Hx _].
  split; [exact Hx|]. vm_compute in Hu. by injection Hu as <-.
Defined.

Lemma snake_head_stays_on_board_witness :
  let p := run_hearing_snake.Player.Make [780; 750; 720] [0; 0; 0] 0 3 0 800 600 0 false in
  exists p' x0',
    run_hearing_snake.Player.update_position_immediately p = Ok p' /\
    run_hearing_snake.Player.x p' !! 0%nat = Some x0' /\ -30 < x0' <= 800.
Proof.
  intros p.
  destruct (run_hearing_snake.Player.update_position_immediately p) as [p'|e] eqn:Hu;
    [|by vm_compute in Hu].
  destruct (snake_head_stays_on_board p p' 780 0) as (x0' & y0' & Hx & _ & Hr & _);
    [vm_compute; discriminate | vm_compute; discriminate | reflexivity | reflexivity
    | vm_compute; split; [reflexivity | discriminate]
    | vm_compute; split; [reflexivity | discriminate] | exact Hu |].
  exists p', x0'. split; [reflexivity|]. split; [exact Hx | exact Hr].
Defined.

Lemma best_scores_stay_sorted_witness :
  exists best' text,
    run_hearing_snake._update_gameover_text 7 [9; 5; 0] = Ok (best', text) /\
    run_hearing_snake.descending best' /\ 7 ∈ best'.
Proof.
  destruct (run_hearing_snake._update_gameover_text 7 [9; 5; 0]) as [[best' text]|e] eqn:Hu;
    [|by vm_compute in Hu].
  destruct (best_scores_stay_sorted 7 [9; 5; 0] best' text) as (Hd & _ & _ & Hin);
    [simpl; lia | simpl; lia | exact Hu |].
  exists best', text. split; [reflexivity|]. split; [exact Hd|].
  destruct Hin as [->|Hin]; [|exact Hin].
  vm_compute in Hu. discriminate.
Defined.
